(** * The SLCI chat widget (app/static/script.js)

    A shallow embedding of the script that drives the chat page: session
    start and reset, sending a message and routing the answer to a text
    bubble or a wage-table card, and the PDF export of a table.

    Modelling conventions.
    - A JavaScript string is the list of its UTF-16 code units.
    - A value received from the server is a JSON value; numbers are
      integers (the model has no fractions or exponents).
    - The chat box is the list of its children, in document order.  The
      markup inside a node is kept as text.  What the HTML parser of the
      browser makes of it matters to the script at one place only, the
      lookup of the placeholder by its id; there the parser is an argument,
      [placeholders_in].  The page outside the chat box is taken to hold
      no element with that id.
    - [fetch], [response.json()], [Date.now()] and the jsPDF object are the
      environment: their outcomes are arguments of the functions below. *)

From Stdlib Require Import String Ascii.
From Stdlib Require Import List NArith ZArith Bool Lia.
Import ListNotations.

Local Open Scope string_scope.
Local Open Scope N_scope.
Local Open Scope list_scope.

(** ** Strings *)

Module JsString.

Definition jsstring := list N.

(** Code units of an ASCII literal. *)
Definition js (s : string) : jsstring :=
  map N_of_ascii (list_ascii_of_string s).

Fixpoint eqb (a b : jsstring) : bool :=
  match a, b with
  | [], [] => true
  | x :: a', y :: b' => (x =? y) && eqb a' b'
  | _, _ => false
  end.

(** WhiteSpace and LineTerminator code units, the ones [String.prototype.trim]
    removes. *)
Definition is_space (c : N) : bool :=
  ((9 <=? c) && (c <=? 13)) || (c =? 32) || (c =? 160) || (c =? 5760)
  || ((8192 <=? c) && (c <=? 8202)) || (c =? 8232) || (c =? 8233)
  || (c =? 8239) || (c =? 8287) || (c =? 12288) || (c =? 65279).

Fixpoint trim_start (s : jsstring) : jsstring :=
  match s with
  | c :: r => if is_space c then trim_start r else s
  | [] => []
  end.

Definition trim_end (s : jsstring) : jsstring := rev (trim_start (rev s)).

(** [s.trim()] *)
Definition trim (s : jsstring) : jsstring := trim_end (trim_start s).

(** *** [text.replace(/<img[^>]*>/g, '')] *)

Definition GT : N := 62.  (* > *)

(** [[^>]*>] at the start of [s]: the number of code units up to and
    including the first [>]. *)
Fixpoint tag_tail_len (s : jsstring) : option nat :=
  match s with
  | [] => None
  | c :: r => if c =? GT then Some 1%nat
              else option_map S (tag_tail_len r)
  end.

(** Length of the match of [/<img[^>]*>/] that starts at the head of [s]. *)
Definition match_img (s : jsstring) : option nat :=
  match s with
  | 60 :: 105 :: 109 :: 103 :: r => option_map (fun n => (4 + n)%nat) (tag_tail_len r)
  | _ => None
  end.

(** The global replace scans from the left; after a match it goes on right
    behind it.  [skip] counts the code units of the current match that are
    still to be dropped. *)
Fixpoint strip_aux (skip : nat) (s : jsstring) : jsstring :=
  match s with
  | [] => []
  | c :: r =>
      match skip with
      | S k => strip_aux k r
      | O => match match_img s with
             | Some n => strip_aux (pred n) r
             | None => c :: strip_aux 0 r
             end
      end
  end.

Definition strip_img (s : jsstring) : jsstring := strip_aux 0 s.

(** Which code units the replace deletes. *)
Fixpoint mask_aux (skip : nat) (s : jsstring) : list bool :=
  match s with
  | [] => []
  | c :: r =>
      match skip with
      | S k => true :: mask_aux k r
      | O => match match_img s with
             | Some n => true :: mask_aux (pred n) r
             | None => false :: mask_aux 0 r
             end
      end
  end.

Definition img_mask (s : jsstring) : list bool := mask_aux 0 s.

Fixpoint keep_unmasked (m : list bool) (s : jsstring) : jsstring :=
  match m, s with
  | b :: m', c :: r => if b then keep_unmasked m' r else c :: keep_unmasked m' r
  | _, _ => []
  end.

(** A substring that matches [<img[^>]*>]. *)
Definition is_img_tag (t : jsstring) : Prop :=
  exists body, t = js "<img" ++ body ++ [GT] /\ ~ In GT body.

(** Position [i] of [s] lies inside a substring of [s] that is an image tag. *)
Definition in_img_tag (s : jsstring) (i : nat) : Prop :=
  exists pre t post,
    s = pre ++ t ++ post /\ is_img_tag t /\
    (length pre <= i < length pre + length t)%nat.

(** The HTML a bubble shows for [text]. *)
Definition sanitize (text : jsstring) : jsstring := trim (strip_img text).

(** Decimal digits of a natural number, most significant first. *)
Fixpoint digits_fuel (fuel : nat) (n : N) (acc : jsstring) : jsstring :=
  match fuel with
  | O => acc
  | S f => let acc' := (48 + n mod 10) :: acc in
           if n <? 10 then acc' else digits_fuel f (n / 10) acc'
  end.

Definition digits (n : N) : jsstring :=
  digits_fuel (S (N.to_nat (N.log2 n))) n [].

(** [String(z)] for an integer. *)
Definition of_Z (z : Z) : jsstring :=
  match z with
  | Zneg p => 45 :: digits (Npos p)
  | _ => digits (Z.to_N z)
  end.

Definition is_digit (c : N) : bool := (48 <=? c) && (c <=? 57).

(** Reads the digits at the head of [s] into [acc]. *)
Fixpoint read_digits (acc : N) (s : jsstring) : N * jsstring :=
  match s with
  | c :: r => if is_digit c then read_digits (10 * acc + (c - 48)) r else (acc, s)
  | [] => (acc, [])
  end.

End JsString.
Import JsString.

(** ** JavaScript completions *)

Inductive js_error :=
| TypeError
| SyntaxError
| FetchRejected
| ApiError
| ErrorMsg (m : jsstring).

Inductive completion (A : Type) :=
| Normal (a : A)
| Throw (e : js_error).
Arguments Normal {A} a.
Arguments Throw {A} e.

Definition cbind {A B} (c : completion A) (k : A -> completion B) : completion B :=
  match c with
  | Normal a => k a
  | Throw e => Throw e
  end.

(** ** JSON values and the operations the script applies to them *)

Module Json.

#[warnings="-register-all"]
Inductive json :=
| JNull
| JBool (b : bool)
| JNum (z : Z)
| JStr (s : jsstring)
| JArr (items : list json)
| JObj (fields : list (jsstring * json)).

(** A property read that finds nothing gives [undefined]: [None]. *)
Definition value := option json.

Fixpoint lookup (k : jsstring) (fs : list (jsstring * json)) : value :=
  match fs with
  | [] => None
  | (k', v) :: r => if eqb k k' then Some v else lookup k r
  end.

Definition has_key (k : jsstring) (fs : list (jsstring * json)) : bool :=
  existsb (fun kv => eqb k (fst kv)) fs.

(** ToBoolean *)
Definition truthy (v : value) : bool :=
  match v with
  | None | Some JNull => false
  | Some (JBool b) => b
  | Some (JNum z) => negb (z =? 0)%Z
  | Some (JStr s) => negb (eqb s [])
  | Some (JArr _) | Some (JObj _) => true
  end.

(** [a || b] *)
Definition or_else (a b : value) : value := if truthy a then a else b.

(** [a || null] *)
Definition or_null (a : value) : json :=
  match a with
  | Some x => if truthy a then x else JNull
  | None => JNull
  end.

(** [v.name] for a name that no prototype defines ([table], [reply],
    [meta], [state], ...); reading a property of [null] or [undefined]
    throws. *)
Definition field (name : jsstring) (v : value) : completion value :=
  match v with
  | None | Some JNull => Throw TypeError
  | Some (JObj fs) => Normal (lookup name fs)
  | Some _ => Normal None
  end.

(** [v?.name] *)
Definition opt_field (name : jsstring) (v : value) : value :=
  match v with
  | Some (JObj fs) => lookup name fs
  | _ => None
  end.

(** [v.length] of a value that is neither [null] nor [undefined]. *)
Definition length_of (v : json) : value :=
  match v with
  | JArr l => Some (JNum (Z.of_nat (length l)))
  | JStr s => Some (JNum (Z.of_nat (length s)))
  | JObj fs => lookup (js "length") fs
  | _ => None
  end.

(** [v[i]] of a value that is neither [null] nor [undefined]. *)
Definition index (v : json) (i : nat) : value :=
  match v with
  | JArr l => nth_error l i
  | JStr s => option_map (fun c => JStr [c]) (nth_error s i)
  | JObj fs => lookup (digits (N.of_nat i)) fs
  | _ => None
  end.

(** ToString.  An object that has a key [toString] of its own hides
    [Object.prototype.toString] behind a value that cannot be called. *)
Fixpoint to_string (v : json) : completion jsstring :=
  match v with
  | JNull => Normal (js "null")
  | JBool true => Normal (js "true")
  | JBool false => Normal (js "false")
  | JNum z => Normal (of_Z z)
  | JStr s => Normal s
  | JArr l =>
      (fix join (l : list json) : completion jsstring :=
         match l with
         | [] => Normal []
         | x :: r =>
             cbind (match x with JNull => Normal [] | _ => to_string x end) (fun a =>
             match r with
             | [] => Normal a
             | _ => cbind (join r) (fun b => Normal (a ++ 44 :: b))
             end)
         end) l
  | JObj fs => if has_key (js "toString") fs then Throw TypeError
               else Normal (js "[object Object]")
  end.

(** ToString of what a template literal interpolates. *)
Definition show (v : value) : completion jsstring :=
  match v with
  | None => Normal (js "undefined")
  | Some x => to_string x
  end.

(** StringToNumber on the integers: an optional sign and decimal digits,
    blank is 0, anything else is NaN ([None]). *)
Definition all_digits (s : jsstring) : bool :=
  negb (eqb s []) && forallb is_digit s.

Definition string_to_number (s : jsstring) : option Z :=
  match trim s with
  | [] => Some 0%Z
  | 45 :: r => if all_digits r then Some (- Z.of_N (fst (read_digits 0 r)))%Z else None
  | 43 :: r => if all_digits r then Some (Z.of_N (fst (read_digits 0 r))) else None
  | r => if all_digits r then Some (Z.of_N (fst (read_digits 0 r))) else None
  end.

(** ToNumber; [None] is NaN. *)
Definition to_number (v : value) : completion (option Z) :=
  match v with
  | None => Normal None
  | Some JNull => Normal (Some 0%Z)
  | Some (JBool b) => Normal (Some (if b then 1 else 0)%Z)
  | Some (JNum z) => Normal (Some z)
  | Some x => cbind (to_string x) (fun s => Normal (string_to_number s))
  end.

(** [i < v] for an integer [i] *)
Definition less_than (i : Z) (v : value) : completion bool :=
  cbind (to_number v) (fun n =>
  Normal (match n with Some z => (i <? z)%Z | None => false end)).

(** *** JSON.stringify *)

Definition is_lead (c : N) : bool := (55296 <=? c) && (c <=? 56319).
Definition is_trail (c : N) : bool := (56320 <=? c) && (c <=? 57343).

Definition hex_digit (d : N) : N := if d <? 10 then 48 + d else 87 + d.

(** [\uXXXX] *)
Definition uesc (c : N) : jsstring :=
  [92; 117; hex_digit (c / 4096); hex_digit ((c / 256) mod 16);
   hex_digit ((c / 16) mod 16); hex_digit (c mod 16)].

Definition quote_unit (c : N) : jsstring :=
  if c =? 8 then [92; 98]
  else if c =? 9 then [92; 116]
  else if c =? 10 then [92; 110]
  else if c =? 12 then [92; 102]
  else if c =? 13 then [92; 114]
  else if c =? 34 then [92; 34]
  else if c =? 92 then [92; 92]
  else if (c <? 32) || is_trail c then uesc c
  else [c].

(** The code points of the string, each one escaped or copied; a
    surrogate that has no partner is escaped. *)
Fixpoint quote_body (s : jsstring) : jsstring :=
  match s with
  | [] => []
  | c :: r =>
      if is_lead c then
        match r with
        | d :: r' => if is_trail d then c :: d :: quote_body r'
                     else uesc c ++ quote_body r
        | [] => uesc c
        end
      else quote_unit c ++ quote_body r
  end.

Definition quote (s : jsstring) : jsstring := 34 :: quote_body s ++ [34].

Fixpoint stringify (v : json) : jsstring :=
  match v with
  | JNull => js "null"
  | JBool true => js "true"
  | JBool false => js "false"
  | JNum z => of_Z z
  | JStr s => quote s
  | JArr l =>
      91 :: (fix items (l : list json) : jsstring :=
               match l with
               | [] => []
               | [x] => stringify x
               | x :: r => stringify x ++ 44 :: items r
               end) l ++ [93]
  | JObj fs =>
      123 :: (fix members (fs : list (jsstring * json)) : jsstring :=
                match fs with
                | [] => []
                | [(k, x)] => quote k ++ 58 :: stringify x
                | (k, x) :: r => quote k ++ 58 :: stringify x ++ 44 :: members r
                end) fs ++ [125]
  end.

(** *** JSON.parse *)

Definition is_json_ws (c : N) : bool :=
  (c =? 9) || (c =? 10) || (c =? 13) || (c =? 32).

Fixpoint skip_ws (s : jsstring) : jsstring :=
  match s with
  | c :: r => if is_json_ws c then skip_ws r else s
  | [] => []
  end.

Definition hex_value (c : N) : option N :=
  if is_digit c then Some (c - 48)
  else if (97 <=? c) && (c <=? 102) then Some (c - 87)
  else if (65 <=? c) && (c <=? 70) then Some (c - 55)
  else None.

Definition hex4 (a b c d : N) : option N :=
  match hex_value a, hex_value b, hex_value c, hex_value d with
  | Some x, Some y, Some z, Some w => Some (4096 * x + 256 * y + 16 * z + w)
  | _, _, _, _ => None
  end.

Definition cons_unit (c : N) (p : option (jsstring * jsstring)) :=
  match p with
  | Some (str, rest) => Some (c :: str, rest)
  | None => None
  end.

(** The characters of a string literal after its opening quote. *)
Fixpoint parse_string (s : jsstring) : option (jsstring * jsstring) :=
  match s with
  | [] => None
  | c :: r =>
      if c =? 34 then Some ([], r)
      else if c =? 92 then
        match r with
        | [] => None
        | e :: r1 =>
            if e =? 34 then cons_unit 34 (parse_string r1)
            else if e =? 92 then cons_unit 92 (parse_string r1)
            else if e =? 47 then cons_unit 47 (parse_string r1)
            else if e =? 98 then cons_unit 8 (parse_string r1)
            else if e =? 102 then cons_unit 12 (parse_string r1)
            else if e =? 110 then cons_unit 10 (parse_string r1)
            else if e =? 114 then cons_unit 13 (parse_string r1)
            else if e =? 116 then cons_unit 9 (parse_string r1)
            else if e =? 117 then
              match r1 with
              | h1 :: h2 :: h3 :: h4 :: r2 =>
                  match hex4 h1 h2 h3 h4 with
                  | Some u => cons_unit u (parse_string r2)
                  | None => None
                  end
              | _ => None
              end
            else None
        end
      else if c <? 32 then None
      else cons_unit c (parse_string r)
  end.

(** An integer numeral without sign: digits, no leading zero.  A numeral
    that goes on with a fraction or an exponent is not an integer and is
    not read. *)
Definition parse_nat (s : jsstring) : option (N * jsstring) :=
  let (n, r) := read_digits 0 s in
  if eqb (firstn (length s - length r) s) (digits n) then
    match r with
    | c :: _ => if (c =? 46) || (c =? 101) || (c =? 69) then None else Some (n, r)
    | [] => Some (n, r)
    end
  else None.

(** [s] without its prefix [p]. *)
Fixpoint strip_prefix (p s : jsstring) : option jsstring :=
  match p, s with
  | [], _ => Some s
  | a :: p', b :: s' => if a =? b then strip_prefix p' s' else None
  | _ :: _, [] => None
  end.

Definition parse_literal (s : jsstring) : option (json * jsstring) :=
  match strip_prefix (js "null") s with
  | Some r => Some (JNull, r)
  | None =>
      match strip_prefix (js "true") s with
      | Some r => Some (JBool true, r)
      | None =>
          match strip_prefix (js "false") s with
          | Some r => Some (JBool false, r)
          | None => None
          end
      end
  end.

(** A key that is already there keeps its place and takes the new value. *)
Fixpoint obj_set (fs : list (jsstring * json)) (k : jsstring) (v : json) :=
  match fs with
  | [] => [(k, v)]
  | (k', v') :: r => if eqb k k' then (k', v) :: r else (k', v') :: obj_set r k v
  end.

Section Loops.
(** The reader of one value, at the nesting depth below. *)
Variable parse_item : jsstring -> option (json * jsstring).

(** The elements of an array that is not empty, up to its []]. *)
Fixpoint parse_elements (n : nat) (s : jsstring) (acc : list json)
  : option (json * jsstring) :=
  match n with
  | O => None
  | S n' =>
      match parse_item s with
      | Some (v, r) =>
          match skip_ws r with
          | c :: r' =>
              if c =? 44 then parse_elements n' r' (acc ++ [v])
              else if c =? 93 then Some (JArr (acc ++ [v]), r')
              else None
          | [] => None
          end
      | None => None
      end
  end.

(** [: value] after a key, and what follows the value. *)
Definition parse_member_value (s : jsstring) : option (json * N * jsstring) :=
  match skip_ws s with
  | c :: r =>
      if c =? 58 then
        match parse_item r with
        | Some (v, r') =>
            match skip_ws r' with
            | c' :: r'' => Some (v, c', r'')
            | [] => None
            end
        | None => None
        end
      else None
  | [] => None
  end.

(** The members of an object that is not empty, up to its [}]. *)
Fixpoint parse_members (n : nat) (s : jsstring) (acc : list (jsstring * json))
  : option (json * jsstring) :=
  match n with
  | O => None
  | S n' =>
      match skip_ws s with
      | c :: r =>
          if c =? 34 then
            match parse_string r with
            | Some (k, r1) =>
                match parse_member_value r1 with
                | Some (v, c', r2) =>
                    if c' =? 44 then parse_members n' r2 (obj_set acc k v)
                    else if c' =? 125 then Some (JObj (obj_set acc k v), r2)
                    else None
                | None => None
                end
            | None => None
            end
          else None
      | [] => None
      end
  end.
End Loops.

Definition starts_with (c : N) (s : jsstring) : bool :=
  match s with
  | c' :: _ => c' =? c
  | [] => false
  end.

(** One value; [depth] bounds the nesting. *)
Fixpoint parse_value (depth : nat) (s : jsstring) : option (json * jsstring) :=
  match depth with
  | O => None
  | S d =>
      match skip_ws s with
      | [] => None
      | c :: r =>
          if c =? 34 then
            match parse_string r with
            | Some (str, r') => Some (JStr str, r')
            | None => None
            end
          else if c =? 91 then
            if starts_with 93 (skip_ws r) then Some (JArr [], tl (skip_ws r))
            else parse_elements (parse_value d) (length r) r []
          else if c =? 123 then
            if starts_with 125 (skip_ws r) then Some (JObj [], tl (skip_ws r))
            else parse_members (parse_value d) (length r) r []
          else if c =? 45 then
            match parse_nat r with
            | Some (n, r') => Some (JNum (- Z.of_N n), r')
            | None => None
            end
          else if is_digit c then
            match parse_nat (c :: r) with
            | Some (n, r') => Some (JNum (Z.of_N n), r')
            | None => None
            end
          else parse_literal (c :: r)
      end
  end.

(** [JSON.parse(text)]; [None] is a SyntaxError. *)
Definition parse (text : jsstring) : option json :=
  match parse_value (length text) text with
  | Some (v, r) => match skip_ws r with [] => Some v | _ => None end
  | None => None
  end.

(** Values a JavaScript engine can hold: 16-bit code units, and no key
    twice in an object. *)
Definition wf_string (s : jsstring) : Prop := Forall (fun c => c < 65536) s.

Fixpoint wf_json (v : json) : Prop :=
  match v with
  | JStr s => wf_string s
  | JArr l => (fix all (l : list json) : Prop :=
                 match l with [] => True | x :: r => wf_json x /\ all r end) l
  | JObj fs =>
      NoDup (map fst fs) /\
      (fix all (fs : list (jsstring * json)) : Prop :=
         match fs with
         | [] => True
         | (k, x) :: r => (wf_string k /\ wf_json x) /\ all r
         end) fs
  | _ => True
  end.

Fixpoint depth (v : json) : nat :=
  match v with
  | JArr l => S (fold_right (fun x m => Nat.max (depth x) m) O l)
  | JObj fs => S (fold_right (fun kx m => Nat.max (depth (snd kx)) m) O fs)
  | _ => 1
  end.

End Json.
Import Json.

(** ASCII literal in which ['] stands for the double quote. *)
Definition jsq (s : string) : jsstring :=
  map (fun c => if c =? 39 then 34 else c) (js s).

(** ** The page *)

Module Dom.

Inductive sender := user | bot.

(** The wrapper [addMessageToChatbox] builds: an avatar and the message
    text, in the order given by the sender.  [message_html] is the markup
    handed to [innerHTML]; [message_removed] counts the elements that have
    been taken out of the message since. *)
Record bubble := {
  wrapper_class : jsstring;
  wrapper_id : option jsstring;
  avatar_src : jsstring;
  message_html : jsstring;
  message_id : option jsstring;
  avatar_first : bool;
  message_removed : nat
}.

Record meta_box := {
  meta_html : jsstring;
  meta_link : option jsstring      (* href of the notification link *)
}.

(** The wrapper [addTableToChat] builds; the two data attributes are the
    ones of the download button. *)
Record card := {
  card_meta : option meta_box;
  table_html : jsstring;
  data_tabledata : jsstring;
  data_meta : jsstring;
  card_removed : nat
}.

Inductive node :=
| Bubble (b : bubble)
| Card (c : card).

Record page := {
  chatBox : list node;
  sessionId : option jsstring;
  categoryDisplay : option jsstring;  (* [None]: there is no #category-buttons *)
  userInput : jsstring;
  requests : list jsstring;           (* bodies POSTed to /chat *)
  console : list (jsstring * js_error)
}.

Definition node_id (n : node) : option jsstring :=
  match n with
  | Bubble b => wrapper_id b
  | Card _ => None
  end.

Definition has_id (id : jsstring) (n : node) : bool :=
  match node_id n with
  | Some i => eqb i id
  | None => false
  end.

(** The id of the placeholder that is shown while an answer is awaited. *)
Definition TYPING_ID : jsstring := js "typing-indicator-wrapper".

(** The markup handed to [innerHTML] inside a node, in document order. *)
Definition node_markup (n : node) : list jsstring :=
  match n with
  | Bubble b => [message_html b]
  | Card c => match card_meta c with
              | Some m => [meta_html m]
              | None => []
              end ++ [table_html c]
  end.

Definition removed_from (n : node) : nat :=
  match n with
  | Bubble b => message_removed b
  | Card c => card_removed c
  end.

(** One element less inside the node. *)
Definition remove_inside (n : node) : node :=
  match n with
  | Bubble b =>
      Bubble {| wrapper_class := wrapper_class b; wrapper_id := wrapper_id b;
                avatar_src := avatar_src b; message_html := message_html b;
                message_id := message_id b; avatar_first := avatar_first b;
                message_removed := S (message_removed b) |}
  | Card c =>
      Card {| card_meta := card_meta c; table_html := table_html c;
              data_tabledata := data_tabledata c; data_meta := data_meta c;
              card_removed := S (card_removed c) |}
  end.

Section Lookup.
(** The HTML parser of the browser, as far as the script can tell: for a
    piece of markup, how many times a lookup of [TYPING_ID] finds an
    element built from it, each find being followed by the removal of the
    element found.  The ids the script itself gives inside a node,
    "typing-indicator" and "wage-table-content", are other ids. *)
Variable placeholders_in : jsstring -> nat.

(** Elements inside the node that a lookup of [TYPING_ID] still finds. *)
Definition inside_left (n : node) : nat :=
  list_sum (map placeholders_in (node_markup n)) - removed_from n.

(** [document.getElementById(TYPING_ID)] followed by [remove()], when
    there is such an element: the first one in document order, the wrapper
    of a node coming before what is inside it. *)
Fixpoint remove_typing (l : list node) : list node :=
  match l with
  | [] => []
  | n :: r =>
      if has_id TYPING_ID n then r
      else if (0 <? inside_left n)%nat then remove_inside n :: r
      else n :: remove_typing r
  end.
End Lookup.

(** The removal when no markup carries the id. *)
Fixpoint remove_by_id (id : jsstring) (l : list node) : list node :=
  match l with
  | [] => []
  | n :: r => if has_id id n then r else n :: remove_by_id id r
  end.

End Dom.
Import Dom.

(** ** State and exceptions *)

Definition Js (A : Type) : Type := page -> completion A * page.

Definition ret {A} (a : A) : Js A := fun st => (Normal a, st).

Definition bind {A B} (m : Js A) (k : A -> Js B) : Js B :=
  fun st => match m st with
            | (Normal a, st') => k a st'
            | (Throw e, st') => (Throw e, st')
            end.

Definition lift {A} (c : completion A) : Js A := fun st => (c, st).

Definition throw {A} (e : js_error) : Js A := fun st => (Throw e, st).

Definition modify (f : page -> page) : Js unit := fun st => (Normal tt, f st).

Definition try_catch (body : Js unit) (handler : js_error -> Js unit) : Js unit :=
  fun st => match body st with
            | (Normal a, st') => (Normal a, st')
            | (Throw e, st') => handler e st'
            end.

Notation "x <- m ;; k" := (bind m (fun x => k))
  (at level 61, m at next level, right associativity).
Notation "m ;; k" := (bind m (fun _ => k))
  (at level 61, right associativity).

(** ** The chat *)

Module Chat.

Definition GREETING : jsstring :=
  js "Hello! I'm the SLCI assistant (Tara). How can I help you today?".
Definition TYPING : jsstring := js "Typing...".
Definition APOLOGY : jsstring :=
  js "Sorry, I'm having trouble connecting. Please try again.".

Definition set_chatBox (l : list node) (st : page) : page :=
  {| chatBox := l; sessionId := sessionId st;
     categoryDisplay := categoryDisplay st; userInput := userInput st;
     requests := requests st; console := console st |}.

Definition set_sessionId (s : option jsstring) (st : page) : page :=
  {| chatBox := chatBox st; sessionId := s;
     categoryDisplay := categoryDisplay st; userInput := userInput st;
     requests := requests st; console := console st |}.

(** [if (categoryBtnContainer) categoryBtnContainer.style.display = d] *)
Definition set_display (d : jsstring) (st : page) : page :=
  {| chatBox := chatBox st; sessionId := sessionId st;
     categoryDisplay := match categoryDisplay st with
                        | Some _ => Some d
                        | None => None
                        end;
     userInput := userInput st;
     requests := requests st; console := console st |}.

Definition set_userInput (s : jsstring) (st : page) : page :=
  {| chatBox := chatBox st; sessionId := sessionId st;
     categoryDisplay := categoryDisplay st; userInput := s;
     requests := requests st; console := console st |}.

Definition add_request (body : jsstring) (st : page) : page :=
  {| chatBox := chatBox st; sessionId := sessionId st;
     categoryDisplay := categoryDisplay st; userInput := userInput st;
     requests := requests st ++ [body]; console := console st |}.

Definition console_error (tag : jsstring) (e : js_error) (st : page) : page :=
  {| chatBox := chatBox st; sessionId := sessionId st;
     categoryDisplay := categoryDisplay st; userInput := userInput st;
     requests := requests st; console := console st ++ [(tag, e)] |}.

Definition appendChild (n : node) (st : page) : page :=
  set_chatBox (chatBox st ++ [n]) st.

Section Browser.
Variable placeholders_in : jsstring -> nat.

Definition removeTypingIndicator : Js unit :=
  modify (fun st => set_chatBox (remove_typing placeholders_in (chatBox st)) st).

(** An id that is [null] or empty is not set. *)
Definition id_given (id : option jsstring) : bool :=
  match id with
  | Some (_ :: _) => true
  | _ => false
  end.

Definition make_bubble (text : jsstring) (who : sender) (id : option jsstring) : bubble :=
  {| wrapper_class := match who with
                      | user => js "user-message"
                      | bot => js "bot-message"
                      end;
     wrapper_id := if id_given id then id else None;
     avatar_src := match who with
                   | user => js "/static/user.png"
                   | bot => js "/static/tara.png"
                   end;
     message_html := sanitize text;
     message_id := if id_given id then Some (js "typing-indicator") else None;
     avatar_first := match who with bot => true | user => false end;
     message_removed := 0 |}.

Definition is_typing_id (id : option jsstring) : bool :=
  match id with
  | Some i => eqb i TYPING_ID
  | None => false
  end.

Definition addMessageToChatbox (text : jsstring) (who : sender) (id : option jsstring)
  : Js unit :=
  (if is_typing_id id then ret tt else removeTypingIndicator) ;;
  modify (appendChild (Bubble (make_bubble text who id))).

(** [Date.now()] has given [now]. *)
Definition startNewSession (now : Z) : Js unit :=
  modify (set_chatBox []) ;;
  modify (set_sessionId (Some (js "session_" ++ of_Z now))) ;;
  modify (set_display (js "flex")) ;;
  addMessageToChatbox GREETING bot None.

(** *** The table card *)

(** [row.map(c => `<tag>${c}</tag>`).join("")]; only an array has [map]. *)
Fixpoint cells_html (tag : jsstring) (cells : list json) : completion jsstring :=
  match cells with
  | [] => Normal []
  | c :: r =>
      cbind (to_string c) (fun t =>
      cbind (cells_html tag r) (fun rest =>
      Normal (60 :: tag ++ 62 :: t ++ 60 :: 47 :: tag ++ 62 :: rest)))
  end.

Definition row_html (tag : jsstring) (row : value) : completion jsstring :=
  match row with
  | Some (JArr cells) =>
      cbind (cells_html tag cells) (fun h => Normal (js "<tr>" ++ h ++ js "</tr>"))
  | _ => Throw TypeError
  end.

(** The values [i] takes in [for (let i = 1; i < tableData.length; i++)]. *)
Definition row_indices (tableData : json) : completion (list nat) :=
  cbind (to_number (length_of tableData)) (fun n =>
  Normal (match n with
          | Some z => seq 1 (Z.to_nat z - 1)
          | None => []
          end)).

Fixpoint rows_html (tableData : json) (ixs : list nat) : completion jsstring :=
  match ixs with
  | [] => Normal []
  | i :: r =>
      cbind (row_html (js "td") (index tableData i)) (fun h =>
      cbind (rows_html tableData r) (fun rest => Normal (h ++ rest)))
  end.

Definition table_markup (tableData : json) : completion jsstring :=
  cbind (row_html (js "th") (index tableData 0)) (fun head =>
  cbind (row_indices tableData) (fun ixs =>
  cbind (rows_html tableData ixs) (fun rows =>
  Normal (jsq "<table class='wage-table'>" ++ head ++ rows ++ js "</table>")))).

Definition NL : jsstring := [10].
Definition PAD : jsstring := js "                ".

(** The template of the meta box; [meta] is truthy here. *)
Definition meta_markup (meta : value) : completion jsstring :=
  cbind (field (js "state") meta) (fun state =>
  cbind (show state) (fun s1 =>
  cbind (field (js "act_name") meta) (fun act =>
  cbind (show act) (fun s2 =>
  cbind (field (js "da") meta) (fun da =>
  cbind (show da) (fun s3 =>
  cbind (field (js "effective_from") meta) (fun eff =>
  cbind (show eff) (fun s4 =>
  Normal (NL ++ PAD ++ js "<b>" ++ [55357; 56525] ++ js " State:</b> " ++ s1 ++ js "<br>"
          ++ NL ++ PAD ++ js "<b>" ++ [55356; 57335] ++ js " Act:</b> " ++ s2 ++ js "<br>"
          ++ NL ++ PAD ++ js "<b>" ++ [55358; 56814] ++ js " DA:</b> " ++ s3 ++ js "<br>"
          ++ NL ++ PAD ++ js "<b>" ++ [55357; 56787] ++ js " Effective From:</b> " ++ s4 ++ js "<br>"
          ++ NL ++ PAD ++ NL ++ PAD ++ js "<br>" ++ NL ++ js "            "))))))))).

Definition make_meta_box (meta : value) : completion (option meta_box) :=
  if truthy meta then
    cbind (meta_markup meta) (fun html =>
    cbind (field (js "pdf_url") meta) (fun url =>
    if truthy url then
      cbind (show url) (fun href =>
      Normal (Some {| meta_html := html; meta_link := Some href |}))
    else Normal (Some {| meta_html := html; meta_link := None |})))
  else Normal None.

Definition make_card (tableData : json) (meta : json) : completion card :=
  cbind (make_meta_box (Some meta)) (fun box =>
  cbind (table_markup tableData) (fun html =>
  Normal {| card_meta := box;
            table_html := html;
            data_tabledata := stringify tableData;
            data_meta := stringify meta;
            card_removed := 0 |})).

Definition addTableToChat (tableData : json) (meta : json) : Js unit :=
  c <- lift (make_card tableData meta) ;;
  modify (appendChild (Card c)).

(** *** Sending *)

(** How the [fetch] of a message ends. *)
Inductive body_result :=
| BadJson                       (* [response.json()] rejects *)
| Parsed (data : json).

Inductive fetch_outcome :=
| Rejected                      (* no response *)
| Responded (ok : bool) (body : body_result).

Definition request_body (userText sid : jsstring) : jsstring :=
  stringify (JObj [(js "message", JStr userText); (js "session_id", JStr sid)]).

Definition no_session (st : page) : bool :=
  match sessionId st with
  | Some (_ :: _) => false
  | _ => true
  end.

Definition session_string (st : page) : jsstring :=
  match sessionId st with
  | Some s => s
  | None => []
  end.

(** [sendChatMessage] up to the [await]: the result is the body handed to
    [fetch], or [None] when the function has returned at once. *)
Definition send_begin (now : Z) : Js (option jsstring) :=
  fun st =>
    let userText := trim (userInput st) in
    if eqb userText [] then (Normal None, st)
    else
      ((if no_session st then startNewSession now else ret tt) ;;
       modify (set_display (js "none")) ;;
       addMessageToChatbox userText user None ;;
       modify (set_userInput []) ;;
       addMessageToChatbox TYPING bot (Some TYPING_ID) ;;
       fun st' =>
         let body := request_body userText (session_string st') in
         (Normal (Some body), add_request body st')) st.

(** [data.table && data.table.length > 0] *)
Definition table_present (table : value) : completion bool :=
  match table with
  | Some t => if truthy table then less_than 0 (length_of t) else Normal false
  | None => Normal false
  end.

(** The last [if] of the [try] block: only a string has [trim]. *)
Definition show_reply (data : json) : Js unit :=
  reply <- lift (field (js "reply") (Some data)) ;;
  if truthy reply then
    match reply with
    | Some (JStr r) =>
        if eqb (trim r) [] then ret tt
        else addMessageToChatbox r bot None
    | _ => throw TypeError
    end
  else ret tt.

(** The [try] block from the point where [fetch] has settled. *)
Definition on_response (o : fetch_outcome) : Js unit :=
  match o with
  | Rejected => throw FetchRejected
  | Responded false _ => throw (ErrorMsg (js "API request failed"))
  | Responded true BadJson => throw SyntaxError
  | Responded true (Parsed data) =>
      removeTypingIndicator ;;
      table <- lift (field (js "table") (Some data)) ;;
      is_table <- lift (table_present table) ;;
      match table, is_table with
      | Some t, true =>
          meta <- lift (field (js "meta") (Some data)) ;;
          addTableToChat t (or_null meta)
      | _, _ => show_reply data
      end
  end.

Definition on_error (e : js_error) : Js unit :=
  modify (console_error (js "Chat Error:") e) ;;
  removeTypingIndicator ;;
  addMessageToChatbox APOLOGY bot None.

(** [sendChatMessage] from the [await] on. *)
Definition send_finish (o : fetch_outcome) : Js unit :=
  try_catch (on_response o) on_error.

(** A call whose [fetch] settles with [o] before anything else happens. *)
Definition sendChatMessage (now : Z) (o : fetch_outcome) : Js unit :=
  sent <- send_begin now ;;
  match sent with
  | Some _ => send_finish o
  | None => ret tt
  end.

Definition run {A} (m : Js A) (st : page) : page := snd (m st).

(** What can happen on the page, in any order: the send of one call and
    the arrival of its answer are separate events. *)
Inductive event :=
| Refresh (now : Z)
| Edit (text : jsstring)
| SendBegin (now : Z)
| SendFinish (o : fetch_outcome).

Definition step (e : event) (st : page) : page :=
  match e with
  | Refresh now => run (startNewSession now) st
  | Edit text => set_userInput text st
  | SendBegin now => run (send_begin now) st
  | SendFinish o => run (send_finish o) st
  end.

(** The page as the browser hands it to the script. *)
Definition blank (display : option jsstring) : page :=
  {| chatBox := []; sessionId := None; categoryDisplay := display;
     userInput := []; requests := []; console := [] |}.

(** The states of a page whose script has run: it starts a session when
    it is loaded. *)
Inductive reachable : page -> Prop :=
| reach_load display now : reachable (run (startNewSession now) (blank display))
| reach_step e st : reachable st -> reachable (step e st).
End Browser.

Definition count_typing (l : list node) : nat :=
  length (filter (has_id TYPING_ID) l).

Definition is_user_bubble (n : node) : bool :=
  match n with
  | Bubble b => eqb (wrapper_class b) (js "user-message")
  | Card _ => false
  end.

Definition user_bubbles (l : list node) : list node := filter is_user_bubble l.

End Chat.
Import Chat.

(** ** The PDF export *)

Module Pdf.

(** Calls on the jsPDF document. *)
Inductive pdf_call :=
| NewDoc (orientation unit format : jsstring)
| SetFontSize (pt : Z)
| SetTextColor (r g b : Z)
| Text (s : jsstring) (x y : Z) (maxWidth : option Z)
| AutoTable (head : value) (body : json) (startY : Z) (fontSize : Z) (fillColor : Z * Z * Z)
| Save (name : jsstring).

(** The library as the export meets it: which of its calls throw, counted
    from 0 (call 0 is the construction of the document, which also fails
    when the library is not there), and the position where the table
    plug-in says the table ends ([None]: it has left no [lastAutoTable]). *)
Record pdf_env := {
  api_fails : nat -> bool;
  final_y : option Z
}.

(** What an export leaves behind. *)
Record pdf_run := {
  calls : list pdf_call;
  logged : list (jsstring * js_error);
  alerts : list jsstring
}.

Definition Doc (A : Type) : Type := list pdf_call -> completion A * list pdf_call.

Definition dret {A} (a : A) : Doc A := fun tr => (Normal a, tr).

Definition dbind {A B} (m : Doc A) (k : A -> Doc B) : Doc B :=
  fun tr => match m tr with
            | (Normal a, tr') => k a tr'
            | (Throw e, tr') => (Throw e, tr')
            end.

Definition dlift {A} (c : completion A) : Doc A := fun tr => (c, tr).

Notation "x <~ m ;; k" := (dbind m (fun x => k))
  (at level 61, m at next level, right associativity).
Notation "m ;;; k" := (dbind m (fun _ => k))
  (at level 61, right associativity).

(** [meta = null] in the parameter list: a meta that is left out is [null]. *)
Definition default_meta (meta : value) : value :=
  match meta with
  | None => Some JNull
  | Some _ => meta
  end.

Section Exporter.
Variable env : pdf_env.

Definition api (c : pdf_call) : Doc unit :=
  fun tr => if api_fails env (length tr) then (Throw ApiError, tr)
            else (Normal tt, tr ++ [c]).

Definition ORG_TITLE : jsstring := js "Shakti Legal Compliance India (SLCI)".
Definition REPORT_TITLE : jsstring := js "Minimum Wage Details Report".
Definition DISCLAIMER : jsstring :=
  js "Disclaimer: This data is fetched automatically via API. Please verify with official State Labour Department website or government published PDF.".
Definition ALERT : jsstring := js "PDF generation failed. Check console.".

(** [tableData[0]] *)
Definition head_row (tableData : value) : completion value :=
  match tableData with
  | None | Some JNull => Throw TypeError
  | Some t => Normal (index t 0)
  end.

(** [tableData.slice(1)]: arrays and strings have [slice]. *)
Definition slice_1 (tableData : value) : completion json :=
  match tableData with
  | Some (JArr l) => Normal (JArr (tl l))
  | Some (JStr s) => Normal (JStr (tl s))
  | _ => Throw TypeError
  end.

(** The lines of the meta block; gives the cursor after them. *)
Definition meta_block (meta : value) (yPos : Z) : Doc Z :=
  if truthy meta then
    api (SetFontSize 11) ;;;
    state <~ dlift (cbind (field (js "state") meta) show) ;;
    api (Text (js "State: " ++ state) 14 yPos None) ;;;
    eff <~ dlift (cbind (field (js "effective_from") meta) show) ;;
    api (Text (js "Effective From: " ++ eff) 14 (yPos + 6) None) ;;;
    url <~ dlift (field (js "pdf_url") meta) ;;
    if truthy url then
      api (SetTextColor 0 0 255) ;;;
      u <~ dlift (show url) ;;
      api (Text (js "Govt Notification PDF: " ++ u) 14 (yPos + 12) None) ;;;
      api (SetTextColor 0 0 0) ;;;
      dret (yPos + 22)%Z
    else dret (yPos + 12)%Z
  else dret yPos.

(** [`Wage_Details_${meta?.state || ""}.pdf`] *)
Definition file_name (meta : value) : completion jsstring :=
  cbind (show (or_else (opt_field (js "state") meta) (Some (JStr []))))
        (fun s => Normal (js "Wage_Details_" ++ s ++ js ".pdf")).

(** The [try] block. *)
Definition export_try (tableData meta : value) : Doc unit :=
  api (NewDoc (js "p") (js "mm") (js "a4")) ;;;
  api (SetFontSize 18) ;;;
  api (SetTextColor 0 100 0) ;;;
  api (Text ORG_TITLE 14 12 None) ;;;
  api (SetFontSize 15) ;;;
  api (SetTextColor 0 0 0) ;;;
  api (Text REPORT_TITLE 14 22 None) ;;;
  yPos <~ meta_block meta 30 ;;
  head <~ dlift (head_row tableData) ;;
  body <~ dlift (slice_1 tableData) ;;
  api (AutoTable head body yPos 9 (16, 185, 129)%Z) ;;;
  finalY <~ dlift (match final_y env with
                   | Some y => Normal (y + 12)%Z
                   | None => Throw TypeError
                   end) ;;
  api (SetFontSize 10) ;;;
  api (SetTextColor 180 0 0) ;;;
  api (Text DISCLAIMER 14 finalY (Some 180%Z)) ;;;
  name <~ dlift (file_name meta) ;;
  api (Save name).

(** [window.downloadTableAsPDF(tableData, meta = null)] *)
Definition downloadTableAsPDF (tableData meta : value) : pdf_run :=
  match export_try tableData (default_meta meta) [] with
  | (Normal _, tr) => {| calls := tr; logged := []; alerts := [] |}
  | (Throw e, tr) =>
      {| calls := tr; logged := [(js "PDF Error:", e)]; alerts := [ALERT] |}
  end.
End Exporter.

Definition is_save (c : pdf_call) : bool :=
  match c with
  | Save _ => true
  | _ => false
  end.

(** The files the export has offered for saving. *)
Definition saved (r : pdf_run) : list jsstring :=
  flat_map (fun c => match c with Save n => [n] | _ => [] end) (calls r).

(** The click handler of the download button of a card. *)
Definition click_arguments (c : card) : completion (json * json) :=
  match parse (data_tabledata c), parse (data_meta c) with
  | Some t, Some m => Normal (t, m)
  | _, _ => Throw SyntaxError
  end.

Definition click_download (env : pdf_env) (c : card) : completion pdf_run :=
  cbind (click_arguments c) (fun a =>
  Normal (downloadTableAsPDF env (Some (fst a)) (Some (snd a)))).

(** A library that never throws and reports the end of the table. *)
Definition sound_env (env : pdf_env) : Prop :=
  (forall k, api_fails env k = false) /\ final_y env <> None.

End Pdf.
Import Pdf.

(** ** Notions the statements use *)

(** *** Strings *)

Definition no_space_head (s : jsstring) : Prop :=
  match s with
  | c :: _ => is_space c = false
  | [] => True
  end.

Definition digits_value (l : jsstring) : N :=
  fold_left (fun a c => 10 * a + (c - 48)) l 0.

(** The pending part of a match ends at a [>]. *)
Definition skip_ok (k : nat) (s : jsstring) : Prop :=
  k = O \/ nth_error s (pred k) = Some GT.

(** *** JSON *)

Section JsonInduction.
Variable P : json -> Prop.
Hypothesis Hnull : P JNull.
Hypothesis Hbool : forall b, P (JBool b).
Hypothesis Hnum : forall z, P (JNum z).
Hypothesis Hstr : forall s, P (JStr s).
Hypothesis Harr : forall l, Forall P l -> P (JArr l).
Hypothesis Hobj : forall fs, Forall (fun kx => P (snd kx)) fs -> P (JObj fs).

Fixpoint json_induction (v : json) : P v :=
  match v with
  | JNull => Hnull
  | JBool b => Hbool b
  | JNum z => Hnum z
  | JStr s => Hstr s
  | JArr l =>
      Harr l ((fix all (l : list json) : Forall P l :=
                 match l with
                 | [] => Forall_nil _
                 | x :: r => Forall_cons x (json_induction x) (all r)
                 end) l)
  | JObj fs =>
      Hobj fs ((fix all (fs : list (jsstring * json))
                  : Forall (fun kx => P (snd kx)) fs :=
                  match fs with
                  | [] => Forall_nil _
                  | kx :: r => Forall_cons kx (json_induction (snd kx)) (all r)
                  end) fs)
  end.
End JsonInduction.

Fixpoint join_comma (l : list jsstring) : jsstring :=
  match l with
  | [] => []
  | [x] => x
  | x :: r => x ++ 44 :: join_comma r
  end.

Definition member_text (kx : jsstring * json) : jsstring :=
  quote (fst kx) ++ 58 :: stringify (snd kx).

(** What may follow a value inside an array or an object. *)
Definition follow_ok (rest : jsstring) : Prop :=
  match rest with
  | [] => True
  | c :: _ => c = 44 \/ c = 93 \/ c = 125
  end.

(** The first character of a value that has been written. *)
Definition value_start (c : N) : Prop :=
  is_json_ws c = false /\ c <> 93 /\ c <> 125.

(** The reader [pv] gives back [x] from its text, whatever follows. *)
Definition reads (pv : jsstring -> option (json * jsstring)) (x : json) : Prop :=
  forall rest, follow_ok rest -> pv (stringify x ++ rest) = Some (x, rest).

(** The payloads of the wire format.  A table is a non-empty array of
    arrays; its cells are strings, or any other value that can be written
    as text.  A meta object has strings for values. *)
Definition is_string (v : json) : bool :=
  match v with
  | JStr _ => true
  | _ => false
  end.

Definition printable (v : json) : bool :=
  match to_string v with
  | Normal _ => true
  | Throw _ => false
  end.

Definition is_row (v : json) : bool :=
  match v with
  | JArr cells => forallb printable cells
  | _ => false
  end.

Definition is_table_payload (t : json) : bool :=
  match t with
  | JArr (r :: rows) => forallb is_row (r :: rows)
  | _ => false
  end.

Definition is_meta_payload (m : value) : bool :=
  match m with
  | None | Some JNull => true
  | Some (JObj fs) => forallb (fun kx => is_string (snd kx)) fs
  | Some _ => false
  end.

(** *** The log *)

(** The placeholder is a bubble of the bot. *)
Definition typing_is_bot (l : list node) : Prop :=
  Forall (fun n => has_id TYPING_ID n = true -> is_user_bubble n = false) l.

(** No markup in the log carries the id of the placeholder. *)
Definition tidy (pin : jsstring -> nat) (l : list node) : Prop :=
  Forall (fun n => inside_left pin n = O) l.

(** Markup without [<] builds no element. *)
Definition plain_is_plain (pin : jsstring -> nat) : Prop :=
  forall t, ~ In 60 t -> pin t = O.

(** What one call can add to the log once its answer is there. *)
Inductive rendering : list node -> Prop :=
| render_nothing : rendering []
| render_card c : rendering [Card c]
| render_text text : rendering [Bubble (make_bubble text bot None)].

(** The shape of the page after the answer of a call has been handled,
    whatever the answer: the placeholder is looked for one to three times,
    and at most one node is added. *)
Definition finish_shape (pin : jsstring -> nat) (st st' : page) : Prop :=
  exists k tail,
    (1 <= k)%nat /\ rendering tail /\
    chatBox st' = Nat.iter k (remove_typing pin) (chatBox st) ++ tail /\
    sessionId st' = sessionId st /\
    userInput st' = userInput st /\
    requests st' = requests st /\
    categoryDisplay st' = categoryDisplay st.

Definition same_but_log (pin : jsstring -> nat) (j : nat) (st st1 : page) : Prop :=
  chatBox st1 = Nat.iter j (remove_typing pin) (chatBox st) /\
  sessionId st1 = sessionId st /\ userInput st1 = userInput st /\
  requests st1 = requests st /\ categoryDisplay st1 = categoryDisplay st.

(** The page right after a message has been sent. *)
Definition sent_page (pin : jsstring -> nat) (now : Z) (st : page) : page :=
  let userText := trim (userInput st) in
  let sid := if no_session st then js "session_" ++ of_Z now
             else session_string st in
  {| chatBox := remove_typing pin
                  (if no_session st then [Bubble (make_bubble GREETING bot None)]
                   else chatBox st)
                ++ [Bubble (make_bubble userText user None);
                    Bubble (make_bubble TYPING bot (Some TYPING_ID))];
     sessionId := Some sid;
     categoryDisplay := option_map (fun _ => js "none") (categoryDisplay st);
     userInput := [];
     requests := requests st ++ [request_body userText sid];
     console := console st |}.

(** A log with at most one placeholder, in a page that has a session. *)
Definition log_ok (st : page) : Prop :=
  (count_typing (chatBox st) <= 1)%nat /\ typing_is_bot (chatBox st) /\
  no_session st = false.

(** The turn is taken as empty: the placeholder goes, no node is added and
    nothing is reported. *)
Definition silent_turn (pin : jsstring -> nat) (o : fetch_outcome) (st : page) : Prop :=
  run (send_finish pin o) st = set_chatBox (remove_typing pin (chatBox st)) st.

(** A [table] that fails the test of the script without a conversion:
    absent, falsy, an empty array, or a value without a length. *)
Definition quiet_table (v : value) : bool :=
  negb (truthy v) ||
  match v with
  | Some (JArr []) | Some (JBool _) | Some (JNum _) => true
  | Some (JObj fs) => negb (has_key (js "length") fs)
  | _ => false
  end.

(** A [reply] that is absent, falsy or a blank string. *)
Definition quiet_reply (v : value) : bool :=
  negb (truthy v) ||
  match v with
  | Some (JStr r) => eqb (trim r) []
  | _ => false
  end.

(** What the download button of a node holds. *)
Definition button_data (n : node) : option (jsstring * jsstring) :=
  match n with
  | Card c => Some (data_tabledata c, data_meta c)
  | Bubble _ => None
  end.

(** *** The export *)

(** A part of the export that never saves: what it adds to the calls
    holds no [Save]. *)
Definition saves_nothing {A} (m : Doc A) : Prop :=
  forall tr c tr', m tr = (c, tr') ->
    exists ext, tr' = tr ++ ext /\ existsb is_save ext = false.

(** A part that saves only as its very last call, when nothing has
    failed before, and under a name that satisfies [P]. *)
Definition saves_last (P : jsstring -> Prop) (m : Doc unit) : Prop :=
  forall tr c tr', m tr = (c, tr') ->
    exists ext, tr' = tr ++ ext /\
      ((c = Normal tt /\ exists pre name,
           ext = pre ++ [Save name] /\ existsb is_save pre = false /\ P name)
       \/ ((exists e, c = Throw e) /\ existsb is_save ext = false)).

(** A part of the export that does not throw. *)
Definition succeeds {A} (m : Doc A) : Prop :=
  forall tr, exists a tr', m tr = (Normal a, tr').

(** The fixed head of every document. *)
Definition title_calls : list pdf_call :=
  [NewDoc (js "p") (js "mm") (js "a4");
   SetFontSize 18; SetTextColor 0 100 0; Text ORG_TITLE 14 12 None;
   SetFontSize 15; SetTextColor 0 0 0; Text REPORT_TITLE 14 22 None].

(** The table and what follows it. *)
Definition table_calls (head : value) (body : json) (startY y : Z) (name : jsstring)
  : list pdf_call :=
  [AutoTable head body startY 9 (16, 185, 129)%Z;
   SetFontSize 10; SetTextColor 180 0 0;
   Text DISCLAIMER 14 (y + 12) (Some 180%Z);
   Save name].

(** The name as the specification words it: made from the state of the
    meta object when there is one, and a fixed name otherwise. *)
Definition spec_file_name (meta : value) : jsstring :=
  match opt_field (js "state") meta with
  | Some (JStr (c :: s)) => js "Wage_Details_" ++ (c :: s) ++ js ".pdf"
  | _ => js "Wage_Details_.pdf"
  end.

(** *** Sample data *)

(** The answer of the specification's example. *)
Definition delhi_table : json :=
  JArr [JArr [JStr (js "State"); JStr (js "Rate")];
        JArr [JStr (js "Delhi"); JStr (js "500")]].

Definition delhi_meta : json :=
  JObj [(js "state", JStr (js "Delhi")); (js "pdf_url", JStr (js "http://x/doc.pdf"))].

Definition delhi_answer : list (jsstring * json) :=
  [(js "reply", JStr (js "Here are the wages"));
   (js "table", delhi_table); (js "meta", delhi_meta)].

(** A parser for pages whose markup carries no id of the placeholder. *)
Definition no_ids : jsstring -> nat := fun _ => O.

(** The page once the script has been loaded. *)
Definition loaded_page : page :=
  run (startNewSession no_ids 1000) (blank (Some [])).

(** A page that waits for the answer to "hi". *)
Definition waiting_page : page :=
  run (send_begin no_ids 1001) (set_userInput (js "hi") loaded_page).

(** Markup of one element that carries the id of the placeholder, and a
    parser that finds this element. *)
Definition id_markup : jsstring := jsq "<b id='typing-indicator-wrapper'>x</b>".

Definition finds_id_markup : jsstring -> nat :=
  fun t => if eqb t id_markup then 1%nat else O.

(** A library whose eighth call throws, and one that works. *)
Definition faulty_env : pdf_env :=
  {| api_fails := fun k => Nat.eqb k 7; final_y := Some 57%Z |}.

Definition working_env : pdf_env :=
  {| api_fails := fun _ => false; final_y := Some 57%Z |}.

Ltac wf_closed :=
  cbn;
  repeat match goal with
         | |- _ /\ _ => split
         | |- True => exact I
         | |- wf_string _ => unfold wf_string
         | |- Forall _ _ => constructor
         | |- _ < _ => reflexivity
         | |- NoDup _ => constructor
         | |- ~ In _ _ => cbn; intuition discriminate
         end.

(** ** The listeners *)

(** What the user can do on the page: the events the script listens to. *)
Inductive ui_event :=
| ClickSend
| KeyPress (key : jsstring)
| ClickCategory (innerText : jsstring)
| ClickRefresh.

(** The listener of an event up to its first [await]: the result is the
    body handed to [fetch], when the listener has sent a message.  The
    label of a quick-action button is taken to be of one line, so that
    the input field holds it as it is. *)
Definition listener (pin : jsstring -> nat) (now : Z) (e : ui_event)
  : Js (option jsstring) :=
  match e with
  | ClickSend => send_begin pin now
  | KeyPress key =>
      if eqb key (js "Enter") then send_begin pin now else ret None
  | ClickCategory innerText =>
      modify (set_userInput innerText) ;; send_begin pin now
  | ClickRefresh => startNewSession pin now ;; ret None
  end.

(** *** Notions for the listeners and the log *)

(** A text without a line break. *)
Definition one_line (s : jsstring) : bool :=
  forallb (fun c => negb ((c =? 10) || (c =? 13))) s.

(** Events one after the other. *)
Definition steps (pin : jsstring -> nat) (es : list event) (st : page) : page :=
  fold_left (fun s e => step pin e s) es st.

Definition is_refresh (e : event) : bool :=
  match e with
  | Refresh _ => true
  | _ => false
  end.

(** What the server reads in a request. *)
Definition request_fields (message sid : jsstring) : json :=
  JObj [(js "message", JStr message); (js "session_id", JStr sid)].

(** The failures of a call: no response, a status that is not ok, a body
    that is not JSON. *)
Definition is_failure (o : fetch_outcome) : bool :=
  match o with
  | Rejected | Responded false _ | Responded true BadJson => true
  | Responded true (Parsed _) => false
  end.

Definition failure_error (o : fetch_outcome) : js_error :=
  match o with
  | Rejected => FetchRejected
  | Responded true BadJson => SyntaxError
  | _ => ErrorMsg (js "API request failed")
  end.

(** A truthy value that is no string. *)
Definition truthy_non_string (v : value) : bool :=
  truthy v && match v with
              | Some (JStr _) => false
              | _ => true
              end.

(** The log without its placeholder. *)
Definition without_placeholder (l : list node) : list node :=
  filter (fun n => negb (has_id TYPING_ID n)) l.

(** The first row of a table is an array. *)
Definition first_row_is_array (t : json) : bool :=
  match index t 0 with
  | Some (JArr _) => true
  | _ => false
  end.

(** *** Markup as the page shows it *)

(** A cell, and a row of cells, of a table. *)
Definition cell_markup (tag text : jsstring) : jsstring :=
  js "<" ++ tag ++ js ">" ++ text ++ js "</" ++ tag ++ js ">".

Definition row_markup (tag : jsstring) (cells : list jsstring) : jsstring :=
  js "<tr>" ++ concat (map (cell_markup tag) cells) ++ js "</tr>".

(** A table of strings as the server sends it. *)
Definition strings_table (rows : list (list jsstring)) : json :=
  JArr (map (fun r => JArr (map JStr r)) rows).

(** What a template shows for a value that is a string or is missing. *)
Definition text_of (v : value) : jsstring :=
  match v with
  | Some (JStr s) => s
  | _ => js "undefined"
  end.

(** *** The lines of the meta block of the export *)

Definition meta_calls (fs : list (jsstring * json)) : list pdf_call :=
  [SetFontSize 11;
   Text (js "State: " ++ text_of (lookup (js "state") fs)) 14 30 None;
   Text (js "Effective From: " ++ text_of (lookup (js "effective_from") fs)) 14 36 None]
  ++ (if truthy (lookup (js "pdf_url") fs)
      then [SetTextColor 0 0 255;
            Text (js "Govt Notification PDF: " ++ text_of (lookup (js "pdf_url") fs))
                 14 42 None;
            SetTextColor 0 0 0]
      else []).

(** Where the table starts below the meta block. *)
Definition table_start (fs : list (jsstring * json)) : Z :=
  if truthy (lookup (js "pdf_url") fs) then 52 else 42.

(** The lines the export writes for a meta value. *)
Definition meta_part (meta : value) : list pdf_call :=
  match meta with
  | Some (JObj fs) => meta_calls fs
  | _ => []
  end.

(** Arrays and strings have [slice]. *)
Definition has_slice (tableData : value) : bool :=
  match tableData with
  | Some (JArr _) | Some (JStr _) => true
  | _ => false
  end.




(** * Properties *)

Example trim_example : trim (js "  hi there ") = js "hi there".
Proof. reflexivity. Qed.

Example strip_example :
  strip_img (js "a<img src=x>b<img>c <im") = js "abc <im".
Proof. reflexivity. Qed.

Example digits_example : of_Z 1730523456789 = js "1730523456789" /\ of_Z (-40) = js "-40" /\ of_Z 0 = js "0".
Proof. repeat split. Qed.

Example stringify_example :
  stringify (JObj [(js "state", JStr (js "Delhi"));
                   (js "n", JArr [JNum (-3); JNull; JBool true; JStr [34; 10; 233; 55357]])])
  = jsq "{'state':'Delhi','n':[-3,null,true,'\'\n" ++ [233] ++ jsq "\ud83d']}".
Proof. reflexivity. Qed.

Example parse_example :
  parse (jsq " { 'a' : [1, 20 ,{}], 'b':'xA\n', 'a': null } ")
  = Some (JObj [(js "a", JNull); (js "b", JStr (js "xA" ++ [10]))]).
Proof. reflexivity. Qed.

Example parse_bad :
  parse (js "[1,]") = None /\ parse (js "01") = None /\ parse (js "") = None.
Proof. repeat split. Qed.

(** ** Strings *)

Lemma eqb_eq (a b : jsstring) : eqb a b = true <-> a = b.
Proof.
  revert b; induction a as [|x a IH]; intros [|y b]; simpl; split; intro H;
    try reflexivity; try discriminate.
  - apply andb_true_iff in H as [H1 H2].
    apply N.eqb_eq in H1. apply IH in H2. now subst.
  - injection H as -> ->. rewrite N.eqb_refl. now apply IH.
Qed.

Lemma eqb_refl (a : jsstring) : eqb a a = true.
Proof. now apply eqb_eq. Qed.

Lemma eqb_neq (a b : jsstring) : eqb a b = false <-> a <> b.
Proof.
  split; intro H.
  - intros E. apply eqb_eq in E. congruence.
  - destruct (eqb a b) eqn:E; [apply eqb_eq in E; contradiction | reflexivity].
Qed.

(** *** trim *)

Lemma trim_start_split (s : jsstring) :
  exists l, s = l ++ trim_start s /\ forallb is_space l = true /\
            no_space_head (trim_start s).
Proof.
  induction s as [|c s (l & E & Hl & Hh)]; simpl.
  - exists []. repeat split.
  - destruct (is_space c) eqn:Hc.
    + exists (c :: l). simpl. rewrite Hc, Hl. repeat split; [congruence | assumption].
    + exists []. simpl. repeat split. assumption.
Qed.

Lemma forallb_rev {A} (f : A -> bool) (l : list A) :
  forallb f (rev l) = forallb f l.
Proof.
  induction l as [|x l IH]; simpl; [reflexivity|].
  rewrite forallb_app, IH. simpl. rewrite andb_true_r. apply andb_comm.
Qed.

(** [trim] removes white space from both ends and nothing else. *)
Lemma trim_split (s : jsstring) :
  exists l r, s = l ++ trim s ++ r /\
              forallb is_space l = true /\ forallb is_space r = true /\
              no_space_head (trim s) /\ no_space_head (rev (trim s)).
Proof.
  destruct (trim_start_split s) as (l & E & Hl & Hh).
  destruct (trim_start_split (rev (trim_start s))) as (r & E' & Hr & Hh').
  exists l, (rev r). unfold trim, trim_end.
  assert (Es : trim_start s = rev (trim_start (rev (trim_start s))) ++ rev r).
  { rewrite <- rev_app_distr, <- E'. symmetry. apply rev_involutive. }
  repeat split.
  - rewrite <- Es. exact E.
  - exact Hl.
  - rewrite forallb_rev. exact Hr.
  - destruct (rev (trim_start (rev (trim_start s)))) as [|c u] eqn:Eu; [exact I|].
    rewrite Es in Hh. simpl in Hh. exact Hh.
  - rewrite rev_involutive. exact Hh'.
Qed.

Lemma trim_nil_iff (s : jsstring) :
  trim s = [] <-> forallb is_space s = true.
Proof.
  destruct (trim_split s) as (l & r & E & Hl & Hr & Hh & _). split.
  - intros T. rewrite T in E. simpl in E. rewrite E, forallb_app, Hl, Hr. reflexivity.
  - intros Hs. destruct (trim s) as [|c u]; [reflexivity|]. simpl in Hh.
    rewrite E, forallb_app in Hs. simpl in Hs. rewrite Hh in Hs.
    rewrite andb_false_r in Hs. discriminate.
Qed.

(** *** Decimal numerals *)

Lemma digits_fuel_acc (f : nat) : forall n acc,
  digits_fuel f n acc = digits_fuel f n [] ++ acc.
Proof.
  induction f as [|f IH]; intros n acc; simpl; [reflexivity|].
  destruct (n <? 10); [reflexivity|].
  rewrite (IH _ ((48 + n mod 10) :: acc)), (IH _ [48 + n mod 10]).
  now rewrite <- app_assoc.
Qed.

Lemma digits_value_snoc (l : jsstring) (c : N) :
  digits_value (l ++ [c]) = 10 * digits_value l + (c - 48).
Proof. unfold digits_value. now rewrite fold_left_app. Qed.

Lemma read_digits_all (l : jsstring) : forall a rest,
  forallb is_digit l = true ->
  match rest with c :: _ => is_digit c = false | [] => True end ->
  read_digits a (l ++ rest) =
  (fold_left (fun a c => 10 * a + (c - 48)) l a, rest).
Proof.
  induction l as [|c l IH]; intros a rest Hl Hr; simpl.
  - destruct rest as [|c r]; [reflexivity|]. simpl. now rewrite Hr.
  - simpl in Hl. apply andb_true_iff in Hl as [Hc Hl]. rewrite Hc. now apply IH.
Qed.

Lemma is_digit_48 (d : N) : d < 10 -> is_digit (48 + d) = true.
Proof.
  intros H. unfold is_digit. apply andb_true_iff. split; apply N.leb_le; lia.
Qed.

Lemma digits_fuel_S (f : nat) (n : N) (acc : jsstring) :
  digits_fuel (S f) n acc =
  if n <? 10 then (48 + n mod 10) :: acc
  else digits_fuel f (n / 10) ((48 + n mod 10) :: acc).
Proof. reflexivity. Qed.

Lemma digits_fuel_spec (f : nat) : forall n,
  n < 2 ^ N.of_nat (S f) ->
  let l := digits_fuel (S f) n [] in
  forallb is_digit l = true /\ digits_value l = n /\ l <> [] /\
  (n <> 0 -> hd 0 l <> 48).
Proof.
  assert (Small : forall n, n < 10 ->
    let l := [48 + n mod 10] in
    forallb is_digit l = true /\ digits_value l = n /\ l <> [] /\
    (n <> 0 -> hd 0 l <> 48)).
  { intros n H. cbn zeta. rewrite N.mod_small by lia.
    unfold digits_value. cbn [forallb fold_left hd].
    rewrite is_digit_48 by lia. repeat split; try lia; discriminate. }
  induction f as [|f IH]; intros n Hn; cbn zeta; rewrite digits_fuel_S.
  - assert (n < 10) by (change (2 ^ N.of_nat 1) with 2 in Hn; lia).
    apply N.ltb_lt in H as H'. rewrite H'. now apply Small.
  - destruct (n <? 10) eqn:E.
    + apply N.ltb_lt in E. now apply Small.
    + apply N.ltb_ge in E. rewrite digits_fuel_acc.
      assert (Hq : n / 10 < 2 ^ N.of_nat (S f)).
      { rewrite (Nat2N.inj_succ (S f)), N.pow_succ_r' in Hn.
        apply N.Div0.div_lt_upper_bound. lia. }
      destruct (IH _ Hq) as (Hd & Hv & Hne & Hh). cbn zeta in *.
      repeat split.
      * rewrite forallb_app, Hd. cbn [forallb].
        rewrite is_digit_48 by (apply N.mod_lt; lia). reflexivity.
      * rewrite digits_value_snoc, Hv.
        rewrite (N.add_comm 48), N.add_sub.
        symmetry. apply N.div_mod. lia.
      * intros C. apply app_eq_nil in C as [_ C]. discriminate.
      * intros _. destruct (digits_fuel (S f) (n / 10) []) as [|c l] eqn:El;
          [congruence|]. cbn [hd app] in *. apply Hh.
        intros Z0. apply N.div_small_iff in Z0; lia.
Qed.

Lemma digits_spec (n : N) :
  forallb is_digit (digits n) = true /\ digits_value (digits n) = n /\
  digits n <> [] /\ (n <> 0 -> hd 0 (digits n) <> 48).
Proof.
  unfold digits. apply digits_fuel_spec.
  rewrite Nat2N.inj_succ, N2Nat.id.
  destruct n as [|p]; [reflexivity|]. apply N.log2_spec. lia.
Qed.

Lemma read_digits_digits (n : N) (rest : jsstring) :
  match rest with c :: _ => is_digit c = false | [] => True end ->
  read_digits 0 (digits n ++ rest) = (n, rest).
Proof.
  intros Hr. destruct (digits_spec n) as (Hd & Hv & _).
  rewrite read_digits_all by assumption. now rewrite <- Hv at 2.
Qed.

Lemma digits_inj (n m : N) : digits n = digits m -> n = m.
Proof.
  intros E. destruct (digits_spec n) as (_ & Hn & _).
  destruct (digits_spec m) as (_ & Hm & _). congruence.
Qed.

Lemma of_Z_inj (a b : Z) : of_Z a = of_Z b -> a = b.
Proof.
  assert (Hneg : forall n, hd 0 (digits n) <> 45).
  { intros n. destruct (digits_spec n) as (Hd & _ & Hne & _).
    destruct (digits n) as [|c l]; [congruence|]. simpl in *.
    apply andb_true_iff in Hd as [Hc _]. unfold is_digit in Hc.
    apply andb_true_iff in Hc as [Hc _]. apply N.leb_le in Hc. lia. }
  destruct a as [|p|p], b as [|q|q]; simpl; intros E;
    try reflexivity;
    try (exfalso; match type of E with
                  | 45 :: _ = digits ?n => apply (Hneg n); rewrite <- E; reflexivity
                  | digits ?n = 45 :: _ => apply (Hneg n); rewrite E; reflexivity
                  end);
    try (apply digits_inj in E; lia).
  injection E as E. apply digits_inj in E. lia.
Qed.

(** *** The image-tag filter *)

Lemma mask_aux_length (s : jsstring) : forall k, length (mask_aux k s) = length s.
Proof.
  induction s as [|c r IH]; intros k; [reflexivity|].
  cbn [mask_aux]. destruct k; [destruct (match_img (c :: r))|]; cbn [length]; now rewrite IH.
Qed.

Lemma strip_aux_mask (s : jsstring) : forall k,
  strip_aux k s = keep_unmasked (mask_aux k s) s.
Proof.
  induction s as [|c r IH]; intros k; [reflexivity|].
  cbn [strip_aux mask_aux]. destruct k; [destruct (match_img (c :: r))|];
    cbn [keep_unmasked]; now rewrite IH.
Qed.

Lemma tag_tail_len_inv (r : jsstring) : forall n,
  tag_tail_len r = Some n ->
  exists body post, r = body ++ GT :: post /\ ~ In GT body /\ n = S (length body).
Proof.
  induction r as [|c r IH]; intros n H; [discriminate|].
  cbn [tag_tail_len] in H. destruct (c =? GT) eqn:E.
  - apply N.eqb_eq in E. subst c. injection H as <-.
    exists [], r. repeat split. intros [].
  - destruct (tag_tail_len r) as [m|]; [|discriminate]. injection H as <-.
    destruct (IH m eq_refl) as (body & post & -> & Hb & ->).
    exists (c :: body), post. repeat split.
    intros [C|C]; [apply N.eqb_neq in E; congruence | contradiction].
Qed.

Lemma tag_tail_len_intro (body post : jsstring) :
  ~ In GT body -> tag_tail_len (body ++ GT :: post) = Some (S (length body)).
Proof.
  induction body as [|c body IH]; intros Hb; cbn [app tag_tail_len length].
  - now rewrite N.eqb_refl.
  - destruct (c =? GT) eqn:E.
    + apply N.eqb_eq in E. exfalso. apply Hb. now left.
    + rewrite IH; [reflexivity|]. intros C. apply Hb. now right.
Qed.

Lemma match_img_intro (t post : jsstring) :
  is_img_tag t -> match_img (t ++ post) = Some (length t).
Proof.
  intros (body & -> & Hb). rewrite <- !app_assoc.
  change (js "<img" ++ body ++ [GT] ++ post) with
    (60 :: 105 :: 109 :: 103 :: body ++ GT :: post).
  cbn [match_img]. rewrite tag_tail_len_intro by assumption.
  cbn [option_map]. f_equal. change (js "<img") with [60; 105; 109; 103].
  cbn [app length]. rewrite !length_app. cbn [length]. lia.
Qed.

Lemma match_img_inv (s : jsstring) (n : nat) :
  match_img s = Some n ->
  exists t post, s = t ++ post /\ is_img_tag t /\ length t = n.
Proof.
  intros H.
  assert (exists r, s = 60 :: 105 :: 109 :: 103 :: r) as [r ->].
  { unfold match_img in H.
    repeat match type of H with
           | match ?x with _ => _ end = _ => destruct x; try discriminate
           end.
    eexists. reflexivity. }
  cbn [match_img] in H. destruct (tag_tail_len r) as [m|] eqn:E; [|discriminate].
  injection H as <-. apply tag_tail_len_inv in E as (body & post & -> & Hb & ->).
  exists (js "<img" ++ body ++ [GT]), post. repeat split.
  - rewrite <- !app_assoc. reflexivity.
  - exists body. split; [reflexivity | assumption].
  - change (js "<img") with [60; 105; 109; 103].
    cbn [app length]. rewrite !length_app. cbn [length]. lia.
Qed.

Lemma mask_aux_skipped (s : jsstring) : forall k i,
  (i < k)%nat -> (i < length s)%nat -> nth i (mask_aux k s) false = true.
Proof.
  induction s as [|c r IH]; intros k i Hk Hi; [cbn in Hi; lia|].
  destruct k as [|k]; [lia|]. cbn [mask_aux]. destruct i as [|i]; [reflexivity|].
  cbn [nth]. apply IH; cbn [length] in Hi; lia.
Qed.

Lemma mask_aux_matched (s : jsstring) (n i : nat) :
  match_img s = Some n -> (i < n)%nat -> (i < length s)%nat ->
  nth i (mask_aux 0 s) false = true.
Proof.
  intros H Hn Hi. destruct s as [|c r]; [discriminate|].
  cbn [mask_aux]. rewrite H. destruct i as [|i]; [reflexivity|].
  cbn [nth]. apply mask_aux_skipped; cbn [length] in Hi; lia.
Qed.

Lemma img_tag_last_gt (t : jsstring) (j : nat) :
  is_img_tag t -> nth_error t j = Some GT -> S j = length t.
Proof.
  intros (body & -> & Hb) H.
  change (js "<img" ++ body ++ [GT]) with (60 :: 105 :: 109 :: 103 :: body ++ [GT]) in *.
  do 4 (destruct j as [|j]; [discriminate|]). cbn [nth_error] in H.
  cbn [length]. rewrite length_app. cbn [length].
  destruct (Nat.lt_ge_cases j (length body)) as [L|L].
  - rewrite nth_error_app1 in H by assumption.
    exfalso. apply Hb. eapply nth_error_In. eassumption.
  - rewrite nth_error_app2 in H by assumption.
    destruct (j - length body)%nat as [|d] eqn:D; [lia|].
    destruct d; discriminate.
Qed.

Lemma skip_ok_next (c : N) (r : jsstring) (k : nat) :
  skip_ok (S k) (c :: r) -> skip_ok k r.
Proof.
  intros [H|H]; [discriminate|]. destruct k as [|k]; [now left|]. right. exact H.
Qed.

Lemma skip_ok_match (c : N) (r : jsstring) (n : nat) :
  match_img (c :: r) = Some n -> skip_ok (pred n) r.
Proof.
  intros H. apply match_img_inv in H as (t & post & E & Ht & <-).
  pose proof Ht as (body & -> & Hb).
  change (js "<img" ++ body ++ [GT]) with (60 :: 105 :: 109 :: 103 :: body ++ [GT]) in *.
  cbn [app] in E. injection E as -> ->. right.
  cbn [length pred nth_error]. rewrite length_app. cbn [length].
  replace (length body + 1)%nat with (S (length body)) by lia.
  cbn [nth_error]. rewrite <- app_assoc. rewrite nth_error_app2 by lia.
  now rewrite Nat.sub_diag.
Qed.

(** Every occurrence of an image tag is deleted. *)
Lemma mask_covers (pre : jsstring) : forall t post k i,
  skip_ok k (pre ++ t ++ post) -> is_img_tag t ->
  (length pre <= i < length pre + length t)%nat ->
  nth i (mask_aux k (pre ++ t ++ post)) false = true.
Proof.
  induction pre as [|c pre IH]; intros t post k i Hk Ht Hi.
  - cbn [app length] in *. destruct k as [|k].
    + apply mask_aux_matched with (n := length t).
      * now apply match_img_intro.
      * lia.
      * rewrite length_app. lia.
    + apply mask_aux_skipped; [|rewrite length_app; lia].
      destruct Hk as [Hk|Hk]; [discriminate|]. cbn [pred] in Hk.
      destruct (Nat.lt_ge_cases k (length t)) as [L|L]; [|lia].
      rewrite nth_error_app1 in Hk by assumption.
      apply img_tag_last_gt in Hk; [lia | assumption].
  - cbn [app length] in *. destruct i as [|i]; [lia|].
    cbn [mask_aux]. destruct k as [|k].
    + destruct (match_img (c :: pre ++ t ++ post)) as [n|] eqn:M; cbn [nth].
      * apply IH; [eapply skip_ok_match; eassumption | assumption | lia].
      * apply IH; [now left | assumption | lia].
    + cbn [nth]. apply IH; [eapply skip_ok_next; eassumption | assumption | lia].
Qed.

Lemma in_img_tag_cons (c : N) (s : jsstring) (i : nat) :
  in_img_tag s i -> in_img_tag (c :: s) (S i).
Proof.
  intros (pre & t & post & -> & Ht & Hi).
  exists (c :: pre), t, post. repeat split; cbn [length]; try assumption; lia.
Qed.

Lemma in_img_tag_match (s : jsstring) (n i : nat) :
  match_img s = Some n -> (i < n)%nat -> in_img_tag s i.
Proof.
  intros H Hi. apply match_img_inv in H as (t & post & -> & Ht & <-).
  exists [], t, post. repeat split; cbn [length]; try assumption; lia.
Qed.

(** Only image tags are deleted. *)
Lemma mask_only_tags (s : jsstring) : forall k i,
  nth i (mask_aux k s) false = true -> (i < k)%nat \/ in_img_tag s i.
Proof.
  induction s as [|c r IH]; intros k i H.
  - destruct i; discriminate.
  - cbn [mask_aux] in H. destruct k as [|k].
    + destruct (match_img (c :: r)) as [n|] eqn:M.
      * right. destruct i as [|i].
        -- eapply in_img_tag_match; [eassumption|].
           apply match_img_inv in M as (t & post & E & (body & -> & _) & <-).
           cbn. lia.
        -- cbn [nth] in H. apply IH in H as [H|H].
           ++ eapply in_img_tag_match; [eassumption | lia].
           ++ now apply in_img_tag_cons.
      * destruct i as [|i]; [discriminate|]. cbn [nth] in H.
        apply IH in H as [H|H]; [lia|]. right. now apply in_img_tag_cons.
    + destruct i as [|i]; [left; lia|]. cbn [nth] in H.
      apply IH in H as [H|H]; [left; lia | right; now apply in_img_tag_cons].
Qed.

Lemma img_mask_spec (s : jsstring) (i : nat) :
  nth i (img_mask s) false = true <-> in_img_tag s i.
Proof.
  split.
  - intros H. apply mask_only_tags in H as [H|H]; [lia | assumption].
  - intros (pre & t & post & -> & Ht & Hi). apply mask_covers; [now left | assumption..].
Qed.

(** ** JSON: what is written is read back *)

Lemma stringify_arr (l : list json) :
  stringify (JArr l) = 91 :: join_comma (map stringify l) ++ [93].
Proof.
  cbn [stringify]. do 2 f_equal.
  induction l as [|x [|y r] IH]; try reflexivity.
  cbn [map join_comma] in *. now rewrite <- IH.
Qed.

Lemma stringify_obj (fs : list (jsstring * json)) :
  stringify (JObj fs) = 123 :: join_comma (map member_text fs) ++ [125].
Proof.
  cbn [stringify]. do 2 f_equal.
  induction fs as [|[k x] [|[k' y] r] IH]; try reflexivity.
  cbn [map join_comma] in *. rewrite <- IH. unfold member_text. cbn [fst snd].
  now rewrite <- app_assoc.
Qed.

Lemma wf_json_arr (l : list json) : wf_json (JArr l) <-> Forall wf_json l.
Proof.
  cbn [wf_json]. induction l as [|x r IH].
  - split; [constructor | exact (fun _ => I)].
  - split.
    + intros [Hx Hr]. constructor; [exact Hx | now apply IH].
    + intros H. inversion H; subst. split; [assumption | now apply IH].
Qed.

Lemma wf_json_obj (fs : list (jsstring * json)) :
  wf_json (JObj fs) <->
  NoDup (map fst fs) /\ Forall (fun kx => wf_string (fst kx) /\ wf_json (snd kx)) fs.
Proof.
  cbn [wf_json]. apply and_iff_compat_l. induction fs as [|[k x] r IH].
  - split; [constructor | exact (fun _ => I)].
  - split.
    + intros [Hx Hr]. constructor; [exact Hx | now apply IH].
    + intros H. inversion H; subst. split; [assumption | now apply IH].
Qed.

(** *** Strings *)

Lemma hex_value_digit (d : N) : d < 16 -> hex_value (hex_digit d) = Some d.
Proof.
  intros H. unfold hex_digit, hex_value, is_digit.
  destruct (d <? 10) eqn:E.
  - apply N.ltb_lt in E.
    replace (48 <=? 48 + d) with true by (symmetry; apply N.leb_le; lia).
    replace (48 + d <=? 57) with true by (symmetry; apply N.leb_le; lia).
    cbn [andb]. f_equal. lia.
  - apply N.ltb_ge in E.
    replace (87 + d <=? 57) with false by (symmetry; apply N.leb_gt; lia).
    rewrite andb_false_r.
    replace (97 <=? 87 + d) with true by (symmetry; apply N.leb_le; lia).
    replace (87 + d <=? 102) with true by (symmetry; apply N.leb_le; lia).
    cbn [andb]. f_equal. lia.
Qed.

Lemma hex4_uesc (c : N) :
  c < 65536 ->
  hex4 (hex_digit (c / 4096)) (hex_digit ((c / 256) mod 16))
       (hex_digit ((c / 16) mod 16)) (hex_digit (c mod 16)) = Some c.
Proof.
  intros H. unfold hex4.
  rewrite !hex_value_digit;
    try (apply N.mod_lt; lia);
    try (apply N.Div0.div_lt_upper_bound; lia).
  f_equal.
  pose proof (N.div_mod c 16 ltac:(lia)) as E1.
  pose proof (N.div_mod (c / 16) 16 ltac:(lia)) as E2.
  pose proof (N.div_mod (c / 256) 16 ltac:(lia)) as E3.
  rewrite N.Div0.div_div in E2. change (16 * 16) with 256 in E2.
  replace (c / 256 / 16) with (c / 4096) in E3
    by (rewrite N.Div0.div_div; reflexivity).
  lia.
Qed.

Lemma parse_string_raw (c : N) (r : jsstring) :
  c <> 34 -> c <> 92 -> 32 <= c ->
  parse_string (c :: r) = cons_unit c (parse_string r).
Proof.
  intros H1 H2 H3. cbn [parse_string].
  apply N.eqb_neq in H1, H2. rewrite H1, H2.
  replace (c <? 32) with false by (symmetry; apply N.ltb_ge; lia).
  reflexivity.
Qed.

Lemma parse_string_uesc (c : N) (r : jsstring) :
  c < 65536 -> parse_string (uesc c ++ r) = cons_unit c (parse_string r).
Proof.
  intros H. unfold uesc. cbn [app].
  change (parse_string (92 :: 117 :: ?a :: ?b :: ?x :: ?d :: r))
    with (match hex4 a b x d with
          | Some u => cons_unit u (parse_string r)
          | None => None
          end).
  now rewrite hex4_uesc.
Qed.

Lemma parse_string_unit (c : N) (r : jsstring) :
  c < 65536 -> parse_string (quote_unit c ++ r) = cons_unit c (parse_string r).
Proof.
  intros H. unfold quote_unit.
  repeat match goal with
         | |- context [if ?x =? ?y then _ else _] =>
             destruct (N.eqb_spec x y) as [->|?]; [reflexivity|]
         end.
  destruct ((c <? 32) || is_trail c) eqn:E.
  - now apply parse_string_uesc.
  - apply orb_false_iff in E as [E _]. apply N.ltb_ge in E.
    cbn [app]. now apply parse_string_raw.
Qed.

Lemma parse_string_quote_body (n : nat) : forall s rest,
  (length s <= n)%nat -> wf_string s ->
  parse_string (quote_body s ++ 34 :: rest) = Some (s, rest).
Proof.
  induction n as [|n IH]; intros s rest Hn Hs.
  - destruct s; [reflexivity | cbn in Hn; lia].
  - destruct s as [|c r]; [reflexivity|].
    inversion Hs as [|? ? Hc Hr]; subst. cbn [length] in Hn.
    cbn [quote_body]. destruct (is_lead c) eqn:L.
    + assert (Hraw : forall u x, 55296 <= u ->
                parse_string (u :: x) = cons_unit u (parse_string x)).
      { intros u x Hu. apply parse_string_raw; lia. }
      unfold is_lead in L. apply andb_true_iff in L as [L _]. apply N.leb_le in L.
      destruct r as [|d r'].
      * rewrite parse_string_uesc by assumption. reflexivity.
      * destruct (is_trail d) eqn:T.
        -- unfold is_trail in T. apply andb_true_iff in T as [T _]. apply N.leb_le in T.
           cbn [app]. rewrite !Hraw by lia.
           inversion Hr; subst. rewrite IH; [reflexivity | cbn [length] in Hn; lia | assumption].
        -- rewrite <- app_assoc, parse_string_uesc by assumption.
           rewrite IH; [reflexivity | lia | assumption].
    + rewrite <- app_assoc, parse_string_unit by assumption.
      rewrite IH; [reflexivity | lia | assumption].
Qed.

Lemma parse_string_quote (s rest : jsstring) :
  wf_string s -> parse_string (quote_body s ++ 34 :: rest) = Some (s, rest).
Proof. intros H. now apply (parse_string_quote_body (length s)). Qed.

(** *** Numbers *)

Lemma firstn_app_exact {A} (l r : list A) :
  firstn (length (l ++ r) - length r) (l ++ r) = l.
Proof.
  rewrite length_app, Nat.add_sub.
  induction l as [|x l IH]; cbn [length firstn app]; [|now rewrite IH].
  destruct r; reflexivity.
Qed.

Lemma parse_nat_digits (n : N) (rest : jsstring) :
  follow_ok rest -> parse_nat (digits n ++ rest) = Some (n, rest).
Proof.
  intros H. unfold parse_nat. rewrite read_digits_digits.
  - rewrite firstn_app_exact, eqb_refl.
    destruct rest as [|c r]; [reflexivity|]. cbn in H.
    destruct H as [->|[->| ->]]; reflexivity.
  - destruct rest as [|c r]; [exact I|]. cbn in H.
    destruct H as [->|[->| ->]]; reflexivity.
Qed.

Lemma digits_head (n : N) :
  exists c r, digits n = c :: r /\ is_digit c = true.
Proof.
  destruct (digits_spec n) as (Hd & _ & Hne & _).
  destruct (digits n) as [|c r]; [congruence|]. exists c, r.
  cbn [forallb] in Hd. apply andb_true_iff in Hd as [Hc _]. now split.
Qed.

(** *** Values *)

Lemma digit_start (c : N) : is_digit c = true -> value_start c.
Proof.
  unfold is_digit. intros H. apply andb_true_iff in H as [H1 H2].
  apply N.leb_le in H1, H2. unfold value_start, is_json_ws.
  repeat split; try lia.
  repeat (apply orb_false_iff; split); apply N.eqb_neq; lia.
Qed.

Lemma stringify_head (v : json) :
  exists c r, stringify v = c :: r /\ value_start c.
Proof.
  assert (lit : forall c, (c = 110 \/ c = 116 \/ c = 102 \/ c = 34 \/ c = 91
                           \/ c = 123 \/ c = 45) -> value_start c).
  { intros c H. repeat destruct H as [H|H]; subst; repeat split; discriminate. }
  destruct v as [|[|]|z|s|l|fs].
  - exists 110, (js "ull"). split; [reflexivity | apply lit; tauto].
  - exists 116, (js "rue"). split; [reflexivity | apply lit; tauto].
  - exists 102, (js "alse"). split; [reflexivity | apply lit; tauto].
  - cbn [stringify]. destruct z as [|p|p]; cbn [of_Z].
    + destruct (digits_head (Z.to_N 0)) as (c & r & E & Hc).
      exists c, r. split; [exact E | now apply digit_start].
    + destruct (digits_head (Z.to_N (Zpos p))) as (c & r & E & Hc).
      exists c, r. split; [exact E | now apply digit_start].
    + eexists 45, _. split; [reflexivity | apply lit; tauto].
  - eexists 34, _. split; [reflexivity | apply lit; tauto].
  - rewrite stringify_arr. eexists 91, _. split; [reflexivity | apply lit; tauto].
  - rewrite stringify_obj. eexists 123, _. split; [reflexivity | apply lit; tauto].
Qed.

Lemma skip_ws_start (c : N) (r : jsstring) :
  is_json_ws c = false -> skip_ws (c :: r) = c :: r.
Proof. intros H. cbn [skip_ws]. now rewrite H. Qed.

Lemma skip_ws_follow (rest : jsstring) : follow_ok rest -> skip_ws rest = rest.
Proof.
  destruct rest as [|c r]; [reflexivity|]. cbn.
  intros [->|[->| ->]]; reflexivity.
Qed.

Lemma obj_set_fresh (acc : list (jsstring * json)) (k : jsstring) (v : json) :
  ~ In k (map fst acc) -> obj_set acc k v = acc ++ [(k, v)].
Proof.
  induction acc as [|[k' v'] acc IH]; intros H; [reflexivity|].
  cbn [obj_set app]. cbn [map fst In] in H.
  destruct (eqb k k') eqn:E.
  - apply eqb_eq in E. exfalso. apply H. left. now symmetry.
  - rewrite IH; [reflexivity|]. intros C. apply H. now right.
Qed.

Section LoopsRead.
Variable pv : jsstring -> option (json * jsstring).

Lemma parse_elements_ok (l : list json) :
  Forall (reads pv) l -> l <> [] ->
  forall n acc rest, (length l <= n)%nat ->
    parse_elements pv n (join_comma (map stringify l) ++ 93 :: rest) acc
    = Some (JArr (acc ++ l), rest).
Proof.
  induction l as [|x l IH]; intros Hl Hne n acc rest Hn; [congruence|].
  inversion Hl as [|? ? Hx Hr]; subst.
  destruct n as [|n]; [cbn in Hn; lia|]. cbn [parse_elements].
  destruct l as [|y l].
  - cbn [map join_comma]. rewrite Hx by (cbn; tauto).
    cbn [skip_ws is_json_ws N.eqb Pos.eqb orb]. reflexivity.
  - change (join_comma (map stringify (x :: y :: l)))
      with (stringify x ++ 44 :: join_comma (map stringify (y :: l))).
    rewrite <- app_assoc. cbn [app]. rewrite Hx by (cbn; tauto).
    cbn [skip_ws is_json_ws N.eqb Pos.eqb orb].
    rewrite IH; [| assumption | discriminate | cbn [length] in *; lia].
    now rewrite <- app_assoc.
Qed.

Lemma parse_members_ok (fs : list (jsstring * json)) :
  Forall (fun kx => wf_string (fst kx) /\ reads pv (snd kx)) fs -> fs <> [] ->
  forall n acc rest, (length fs <= n)%nat ->
    NoDup (map fst (acc ++ fs)) ->
    parse_members pv n (join_comma (map member_text fs) ++ 125 :: rest) acc
    = Some (JObj (acc ++ fs), rest).
Proof.
  induction fs as [|[k x] fs IH]; intros Hl Hne n acc rest Hn Hd; [congruence|].
  inversion Hl as [|? ? [Hk Hx] Hr]; subst. cbn [fst snd] in *.
  destruct n as [|n]; [cbn in Hn; lia|].
  assert (Hfresh : ~ In k (map fst acc)).
  { rewrite map_app in Hd. cbn [map fst] in Hd.
    apply NoDup_remove_2 in Hd. intros C. apply Hd.
    apply in_or_app. now left. }
  assert (Hstep : forall tail c',
    follow_ok (c' :: tail) ->
    parse_members pv (S n) (member_text (k, x) ++ c' :: tail) acc =
    if c' =? 44 then parse_members pv n tail (acc ++ [(k, x)])
    else if c' =? 125 then Some (JObj (acc ++ [(k, x)]), tail)
    else None).
  { intros tail c' Hf. cbn [parse_members]. unfold member_text, quote. cbn [fst snd].
    cbn [app]. rewrite skip_ws_start by reflexivity.
    cbn [N.eqb Pos.eqb]. rewrite <- !app_assoc. cbn [app].
    rewrite parse_string_quote by assumption.
    unfold parse_member_value. rewrite skip_ws_start by reflexivity.
    cbn [N.eqb Pos.eqb]. rewrite Hx by assumption.
    rewrite skip_ws_follow by assumption.
    now rewrite obj_set_fresh. }
  destruct fs as [|[k' y] fs].
  - cbn [map join_comma]. rewrite Hstep by (cbn; tauto). reflexivity.
  - change (join_comma (map member_text ((k, x) :: (k', y) :: fs)))
      with (member_text (k, x) ++ 44 :: join_comma (map member_text ((k', y) :: fs))).
    rewrite <- app_assoc. cbn [app]. rewrite Hstep by (cbn; tauto).
    cbn [N.eqb Pos.eqb].
    rewrite IH; [| assumption | discriminate | cbn [length] in *; lia |].
    + now rewrite <- app_assoc.
    + now rewrite <- app_assoc.
Qed.
End LoopsRead.

Lemma depth_arr_bound (l : list json) (d : nat) :
  (depth (JArr l) <= S d)%nat -> Forall (fun x => (depth x <= d)%nat) l.
Proof.
  cbn [depth]. intros H. apply le_S_n in H.
  induction l as [|x l IH]; constructor; cbn [fold_right] in H; [lia|].
  apply IH. lia.
Qed.

Lemma depth_obj_bound (fs : list (jsstring * json)) (d : nat) :
  (depth (JObj fs) <= S d)%nat -> Forall (fun kx => (depth (snd kx) <= d)%nat) fs.
Proof.
  cbn [depth]. intros H. apply le_S_n in H.
  induction fs as [|x l IH]; constructor; cbn [fold_right] in H; [lia|].
  apply IH. lia.
Qed.

Lemma depth_pos (v : json) : (1 <= depth v)%nat.
Proof. destruct v; cbn [depth]; lia. Qed.

Lemma join_comma_length (l : list jsstring) :
  Forall (fun x => (1 <= length x)%nat) l -> (length l <= length (join_comma l))%nat.
Proof.
  induction 1 as [|x l Hx Hl IH]; [apply le_n|].
  destruct l as [|y l]; cbn [join_comma length] in *; [lia|].
  rewrite length_app. cbn [length]. lia.
Qed.

Lemma stringify_length (v : json) : (1 <= length (stringify v))%nat.
Proof.
  destruct (stringify_head v) as (c & r & -> & _). cbn [length]. lia.
Qed.

(** Reading with enough depth gives back the value that was written. *)
Lemma parse_value_stringify (v : json) :
  wf_json v -> forall d, (depth v <= d)%nat -> reads (parse_value d) v.
Proof.
  induction v as [| b | z | s | l IH | fs IH] using json_induction;
    intros Hwf d Hd rest Hrest;
    (destruct d as [|d]; [pose proof (depth_pos JNull); cbn [depth] in Hd; lia|]).
  - reflexivity.
  - destruct b; reflexivity.
  - cbn [stringify parse_value]. destruct z as [|p|p]; cbn [of_Z].
    + destruct (digits_head (Z.to_N 0)) as (c & r & E & Hc). rewrite E.
      cbn [app]. rewrite skip_ws_start by apply (digit_start c Hc).
      pose proof Hc as Hc'. unfold is_digit in Hc'.
      apply andb_true_iff in Hc' as [L U]. apply N.leb_le in L, U.
      repeat match goal with
             | |- context [if ?x =? ?y then _ else _] =>
                 destruct (N.eqb_spec x y); [lia|]
             end.
      rewrite Hc. change (c :: r ++ rest) with ((c :: r) ++ rest).
      rewrite <- E, parse_nat_digits by assumption. reflexivity.
    + destruct (digits_head (Z.to_N (Zpos p))) as (c & r & E & Hc). rewrite E.
      cbn [app]. rewrite skip_ws_start by apply (digit_start c Hc).
      pose proof Hc as Hc'. unfold is_digit in Hc'.
      apply andb_true_iff in Hc' as [L U]. apply N.leb_le in L, U.
      repeat match goal with
             | |- context [if ?x =? ?y then _ else _] =>
                 destruct (N.eqb_spec x y); [lia|]
             end.
      rewrite Hc. change (c :: r ++ rest) with ((c :: r) ++ rest).
      rewrite <- E, parse_nat_digits by assumption. reflexivity.
    + cbn [app]. rewrite skip_ws_start by reflexivity.
      cbn [N.eqb Pos.eqb]. rewrite parse_nat_digits by assumption. reflexivity.
  - cbn [stringify parse_value]. unfold quote. cbn [app].
    rewrite skip_ws_start by reflexivity. cbn [N.eqb Pos.eqb].
    rewrite <- app_assoc. cbn [app]. cbn [wf_json] in Hwf.
    now rewrite parse_string_quote.
  - rewrite stringify_arr. cbn [parse_value app].
    rewrite skip_ws_start by reflexivity. cbn [N.eqb Pos.eqb].
    destruct l as [|x l].
    + cbn [map join_comma app]. now rewrite skip_ws_follow by (cbn; tauto).
    + rewrite <- app_assoc. cbn [app].
      destruct (stringify_head x) as (c & r & E & Hws & Hc & _).
      assert (Hsw : starts_with 93
                (skip_ws (join_comma (map stringify (x :: l)) ++ 93 :: rest)) = false).
      { cbn [map]. destruct l; cbn [join_comma map]; rewrite E; cbn [app];
          rewrite skip_ws_start by assumption; cbn [starts_with];
          now apply N.eqb_neq. }
      rewrite Hsw. rewrite parse_elements_ok.
      * reflexivity.
      * apply wf_json_arr in Hwf. apply depth_arr_bound in Hd.
        rewrite Forall_forall in *. intros y Hy. apply IH; auto.
      * discriminate.
      * rewrite length_app. etransitivity; [|apply Nat.le_add_r].
        erewrite <- (length_map stringify). apply join_comma_length.
        apply Forall_forall. intros t Ht. apply in_map_iff in Ht as (y & <- & _).
        apply stringify_length.
  - rewrite stringify_obj. cbn [parse_value app].
    rewrite skip_ws_start by reflexivity. cbn [N.eqb Pos.eqb].
    destruct fs as [|kx fs].
    + cbn [map join_comma app]. now rewrite skip_ws_follow by (cbn; tauto).
    + rewrite <- app_assoc. cbn [app].
      assert (Hsw : starts_with 125
                (skip_ws (join_comma (map member_text (kx :: fs)) ++ 125 :: rest)) = false).
      { cbn [map]. unfold member_text at 1. unfold quote.
        destruct fs; cbn [join_comma map app]; reflexivity. }
      rewrite Hsw. apply wf_json_obj in Hwf as [Hnd Hwf].
      rewrite parse_members_ok.
      * reflexivity.
      * apply depth_obj_bound in Hd.
        rewrite Forall_forall in *. intros y Hy. split; [now apply Hwf|].
        apply IH; auto. now apply Hwf.
      * discriminate.
      * rewrite length_app. etransitivity; [|apply Nat.le_add_r].
        erewrite <- (length_map member_text). apply join_comma_length.
        apply Forall_forall. intros t Ht. apply in_map_iff in Ht as (y & <- & _).
        unfold member_text, quote. cbn [app length]. lia.
      * exact Hnd.
Qed.

Lemma depth_le_length (v : json) : (depth v <= length (stringify v))%nat.
Proof.
  induction v as [| b | z | s | l IH | fs IH] using json_induction;
    try apply (stringify_length _).
  - rewrite stringify_arr. cbn [depth length]. apply le_n_S.
    rewrite length_app. etransitivity; [|apply Nat.le_add_r].
    induction IH as [|x l Hx Hl IHl]; [apply le_0_n|].
    cbn [fold_right map].
    assert (length (stringify x) <= length (join_comma (stringify x :: map stringify l))
            /\ length (join_comma (map stringify l))
               <= length (join_comma (stringify x :: map stringify l)))%nat as [A B].
    { destruct (map stringify l) as [|y t]; cbn [join_comma length].
      - split; [apply le_n | apply le_0_n].
      - rewrite length_app. cbn [length]. split; lia. }
    lia.
  - rewrite stringify_obj. cbn [depth length]. apply le_n_S.
    rewrite length_app. etransitivity; [|apply Nat.le_add_r].
    induction IH as [|x l Hx Hl IHl]; [apply le_0_n|].
    cbn [fold_right map].
    assert (length (stringify (snd x)) <= length (join_comma (member_text x :: map member_text l))
            /\ length (join_comma (map member_text l))
               <= length (join_comma (member_text x :: map member_text l)))%nat as [A B].
    { assert (length (stringify (snd x)) <= length (member_text x))%nat.
      { unfold member_text. rewrite length_app. cbn [length]. lia. }
      destruct (map member_text l) as [|y t]; cbn [join_comma length].
      - split; [assumption | apply le_0_n].
      - rewrite length_app. cbn [length]. split; lia. }
    lia.
Qed.

(** [JSON.parse(JSON.stringify(v))] is [v]. *)
Lemma parse_stringify (v : json) : wf_json v -> parse (stringify v) = Some v.
Proof.
  intros H. unfold parse.
  pose proof (parse_value_stringify v H (length (stringify v))
                (depth_le_length v) [] I) as E.
  rewrite app_nil_r in E. now rewrite E.
Qed.

(** ** The chat log *)

Lemma count_typing_app (a b : list node) :
  count_typing (a ++ b) = (count_typing a + count_typing b)%nat.
Proof. unfold count_typing. now rewrite filter_app, length_app. Qed.

Lemma user_bubbles_app (a b : list node) :
  user_bubbles (a ++ b) = user_bubbles a ++ user_bubbles b.
Proof. apply filter_app. Qed.

Lemma typing_is_bot_app (a b : list node) :
  typing_is_bot a -> typing_is_bot b -> typing_is_bot (a ++ b).
Proof. unfold typing_is_bot. intros. apply Forall_app. now split. Qed.

Lemma typing_is_bot_bubble (text : jsstring) (id : option jsstring) :
  typing_is_bot [Bubble (make_bubble text bot id)].
Proof. constructor; [reflexivity | constructor]. Qed.

Lemma typing_is_bot_user (text : jsstring) :
  typing_is_bot [Bubble (make_bubble text user None)].
Proof. constructor; [discriminate | constructor]. Qed.

Lemma rendering_facts (tail : list node) :
  rendering tail ->
  count_typing tail = O /\ user_bubbles tail = [] /\ typing_is_bot tail /\
  (length tail <= 1)%nat.
Proof.
  intros [| c | text]; repeat split; try reflexivity; try (cbn; lia);
    try constructor; try constructor; try discriminate.
Qed.

(** *** The lookup when no markup carries the id *)

Lemma count_typing_remove (l : list node) :
  count_typing (remove_by_id TYPING_ID l) = pred (count_typing l).
Proof.
  unfold count_typing.
  induction l as [|n l IH]; [reflexivity|]. cbn [remove_by_id filter].
  destruct (has_id TYPING_ID n) eqn:E; [reflexivity|].
  cbn [filter]. now rewrite E.
Qed.

Lemma typing_is_bot_remove (l : list node) :
  typing_is_bot l -> typing_is_bot (remove_by_id TYPING_ID l).
Proof.
  unfold typing_is_bot. induction 1 as [|n l Hn Hl IH]; [constructor|].
  cbn [remove_by_id]. destruct (has_id TYPING_ID n) eqn:E;
    [assumption | constructor; [congruence | exact IH]].
Qed.

Lemma user_bubbles_remove (l : list node) :
  typing_is_bot l -> user_bubbles (remove_by_id TYPING_ID l) = user_bubbles l.
Proof.
  unfold typing_is_bot, user_bubbles.
  induction 1 as [|n l Hn Hl IH]; [reflexivity|].
  cbn [remove_by_id filter]. destruct (has_id TYPING_ID n) eqn:E.
  - now rewrite Hn.
  - cbn [filter]. now rewrite IH.
Qed.

Section ChatLog.
Variable pin : jsstring -> nat.

Lemma removeTypingIndicator_run (st : page) :
  removeTypingIndicator pin st
  = (Normal tt, set_chatBox (remove_typing pin (chatBox st)) st).
Proof. reflexivity. Qed.

Lemma addMessageToChatbox_run (text : jsstring) (who : sender)
      (id : option jsstring) (st : page) :
  addMessageToChatbox pin text who id st =
  (Normal tt,
   set_chatBox ((if is_typing_id id then chatBox st
                 else remove_typing pin (chatBox st))
                ++ [Bubble (make_bubble text who id)]) st).
Proof. unfold addMessageToChatbox. destruct (is_typing_id id); reflexivity. Qed.

Lemma startNewSession_run (now : Z) (st : page) :
  startNewSession pin now st =
  (Normal tt,
   {| chatBox := [Bubble (make_bubble GREETING bot None)];
      sessionId := Some (js "session_" ++ of_Z now);
      categoryDisplay := option_map (fun _ => js "flex") (categoryDisplay st);
      userInput := userInput st;
      requests := requests st;
      console := console st |}).
Proof.
  destruct st as [cb sid [d|] ui rq co]; reflexivity.
Qed.

(** On a tidy log the lookup finds the placeholder, if there is one. *)
Lemma remove_typing_tidy (l : list node) :
  tidy pin l -> remove_typing pin l = remove_by_id TYPING_ID l.
Proof.
  induction 1 as [|n l Hn Hl IH]; [reflexivity|].
  cbn [remove_typing remove_by_id]. rewrite Hn, IH. reflexivity.
Qed.

Lemma tidy_remove (l : list node) :
  tidy pin l -> tidy pin (remove_by_id TYPING_ID l).
Proof.
  induction 1 as [|n l Hn Hl IH]; [constructor|].
  cbn [remove_by_id]. destruct (has_id TYPING_ID n); [assumption | now constructor].
Qed.

Lemma iter_remove_typing_tidy (k : nat) (l : list node) :
  tidy pin l ->
  Nat.iter k (remove_typing pin) l = Nat.iter k (remove_by_id TYPING_ID) l /\
  tidy pin (Nat.iter k (remove_by_id TYPING_ID) l).
Proof.
  intros H. induction k as [|k [E T]]; [now split|].
  change (Nat.iter (S k) ?f l) with (f (Nat.iter k f l)).
  rewrite E, remove_typing_tidy by assumption. split; [reflexivity|].
  now apply tidy_remove.
Qed.

Lemma iter_remove_facts (k : nat) (l : list node) :
  typing_is_bot l ->
  typing_is_bot (Nat.iter k (remove_by_id TYPING_ID) l) /\
  user_bubbles (Nat.iter k (remove_by_id TYPING_ID) l) = user_bubbles l /\
  count_typing (Nat.iter k (remove_by_id TYPING_ID) l) = (count_typing l - k)%nat.
Proof.
  intros H. induction k as [|k (B & U & C)].
  - repeat split; [assumption | symmetry; apply Nat.sub_0_r].
  - change (Nat.iter (S k) ?f l) with (f (Nat.iter k f l)).
    rewrite user_bubbles_remove, count_typing_remove, U, C by assumption.
    repeat split; [now apply typing_is_bot_remove | lia].
Qed.

Lemma on_error_run (e : js_error) (st : page) :
  on_error pin e st =
  (Normal tt,
   console_error (js "Chat Error:") e
     (set_chatBox (remove_typing pin (remove_typing pin (chatBox st))
                   ++ [Bubble (make_bubble APOLOGY bot None)]) st)).
Proof. reflexivity. Qed.

Lemma on_error_shape (e : js_error) (st st1 : page) (j : nat) :
  same_but_log pin j st st1 -> finish_shape pin st (snd (on_error pin e st1)).
Proof.
  intros (E1 & E2 & E3 & E4 & E5).
  exists (S (S j)), [Bubble (make_bubble APOLOGY bot None)].
  rewrite on_error_run.
  cbn [snd console_error set_chatBox chatBox sessionId userInput requests
       categoryDisplay].
  rewrite E1. repeat split; try assumption; [lia | constructor].
Qed.

Lemma no_render_shape (st st1 : page) :
  same_but_log pin 1 st st1 -> finish_shape pin st st1.
Proof.
  intros (E1 & E2 & E3 & E4 & E5). exists 1%nat, [].
  rewrite app_nil_r. repeat split; try assumption; constructor.
Qed.

Lemma show_reply_shape (data : json) (st st1 : page) :
  same_but_log pin 1 st st1 ->
  finish_shape pin st (snd (try_catch (show_reply pin data) (on_error pin) st1)).
Proof.
  intros H. unfold try_catch, show_reply, bind, lift.
  destruct (field (js "reply") (Some data)) as [reply|e];
    [|now apply on_error_shape with (j := 1%nat)].
  destruct (truthy reply); [|now apply no_render_shape].
  destruct reply as [[| | |r| |]|];
    try (now apply on_error_shape with (j := 1%nat)).
  destruct (eqb (trim r) []); [now apply no_render_shape|].
  rewrite addMessageToChatbox_run. destruct H as (E1 & E2 & E3 & E4 & E5).
  exists 2%nat, [Bubble (make_bubble r bot None)].
  cbn [snd set_chatBox chatBox sessionId userInput requests categoryDisplay
       is_typing_id].
  rewrite E1. repeat split; try assumption; [lia | constructor].
Qed.

(** Whatever the answer, handling it looks for the placeholder one to three
    times and then adds at most one node. *)
Lemma send_finish_shape (o : fetch_outcome) (st : page) :
  finish_shape pin st (run (send_finish pin o) st).
Proof.
  assert (H0 : same_but_log pin 0 st st) by (repeat split).
  assert (H1 : same_but_log pin 1 st
                 (set_chatBox (remove_typing pin (chatBox st)) st)) by (repeat split).
  unfold run, send_finish.
  destruct o as [|[|] [|data]];
    try (now apply on_error_shape with (j := 0%nat)).
  unfold try_catch. cbn [on_response].
  unfold bind at 1. rewrite removeTypingIndicator_run.
  unfold bind at 1, lift at 1.
  destruct (field (js "table") (Some data)) as [table|e];
    [|now apply on_error_shape with (j := 1%nat)].
  unfold bind at 1, lift at 1.
  destruct (table_present table) as [is_table|e];
    [|now apply on_error_shape with (j := 1%nat)].
  destruct table as [t|]; [|now apply show_reply_shape].
  destruct is_table; [|now apply show_reply_shape].
  unfold bind, lift.
  destruct (field (js "meta") (Some data)) as [meta|e];
    [|now apply on_error_shape with (j := 1%nat)].
  unfold addTableToChat, bind, lift.
  destruct (make_card t (or_null meta)) as [c|e];
    [|now apply on_error_shape with (j := 1%nat)].
  destruct H1 as (E1 & E2 & E3 & E4 & E5).
  exists 1%nat, [Card c]. repeat split; try assumption; constructor.
Qed.

Lemma send_begin_run (now : Z) (st : page) :
  trim (userInput st) <> [] ->
  send_begin pin now st =
  (Normal (Some (request_body (trim (userInput st))
                   (if no_session st then js "session_" ++ of_Z now
                    else session_string st))),
   sent_page pin now st).
Proof.
  intros H. apply eqb_neq in H. unfold send_begin. rewrite H.
  unfold sent_page. destruct st as [cb [[|c sid]|] [d|] ui rq co];
    cbn [no_session sessionId userInput]; unfold bind, ret, modify;
    rewrite ?startNewSession_run; cbn beta iota;
    rewrite addMessageToChatbox_run; cbn beta iota;
    rewrite addMessageToChatbox_run; cbn beta iota;
    unfold add_request, set_userInput, set_chatBox, set_display, appendChild;
    cbn [chatBox sessionId categoryDisplay userInput requests console
         session_string option_map is_typing_id];
    rewrite eqb_refl, <- app_assoc; reflexivity.
Qed.

Lemma send_begin_blank (now : Z) (st : page) :
  trim (userInput st) = [] -> send_begin pin now st = (Normal None, st).
Proof. intros H. unfold send_begin. now rewrite H. Qed.

Lemma sendChatMessage_run (now : Z) (o : fetch_outcome) (st : page) :
  trim (userInput st) <> [] ->
  run (sendChatMessage pin now o) st = run (send_finish pin o) (sent_page pin now st).
Proof.
  intros H. unfold run, sendChatMessage, bind. now rewrite send_begin_run.
Qed.

Lemma log_ok_start (now : Z) (st : page) :
  log_ok (run (startNewSession pin now) st).
Proof.
  unfold run. rewrite startNewSession_run. cbn [snd]. repeat split.
  - cbn. lia.
  - apply typing_is_bot_bubble.
Qed.

(** *** Logs without ids in their markup *)

Lemma tidy_bubble (text : jsstring) (who : sender) (id : option jsstring) :
  pin (sanitize text) = O -> tidy pin [Bubble (make_bubble text who id)].
Proof.
  intros H. constructor; [|constructor].
  unfold inside_left. cbn [node_markup make_bubble message_html map list_sum].
  rewrite H. reflexivity.
Qed.

Lemma tidy_plain (text : jsstring) (who : sender) (id : option jsstring) :
  plain_is_plain pin -> ~ In 60 (sanitize text) ->
  tidy pin [Bubble (make_bubble text who id)].
Proof. intros Hp Hn. apply tidy_bubble. now apply Hp. Qed.

Lemma tidy_start (now : Z) (st : page) :
  plain_is_plain pin -> tidy pin (chatBox (run (startNewSession pin now) st)).
Proof.
  intros Hp. unfold run. rewrite startNewSession_run. cbn [snd chatBox].
  apply tidy_plain; [assumption|]. vm_compute. intuition discriminate.
Qed.

Lemma sent_tidy (now : Z) (st : page) :
  plain_is_plain pin -> log_ok st -> tidy pin (chatBox st) ->
  pin (sanitize (trim (userInput st))) = O ->
  log_ok (sent_page pin now st) /\ tidy pin (chatBox (sent_page pin now st)) /\
  user_bubbles (chatBox (sent_page pin now st))
  = user_bubbles (chatBox st) ++ [Bubble (make_bubble (trim (userInput st)) user None)].
Proof.
  intros Hp (Hc & Hb & Hs) Ht Hu. unfold log_ok, sent_page. rewrite Hs.
  cbn [chatBox]. rewrite remove_typing_tidy by assumption.
  assert (Tt : tidy pin [Bubble (make_bubble (trim (userInput st)) user None);
                         Bubble (make_bubble TYPING bot (Some TYPING_ID))]).
  { apply (Forall_app _ [_] [_]). split.
    - now apply tidy_bubble.
    - apply tidy_plain; [assumption|]. vm_compute. intuition discriminate. }
  repeat split.
  - rewrite count_typing_app, count_typing_remove. cbn. lia.
  - apply typing_is_bot_app; [now apply typing_is_bot_remove|].
    apply (typing_is_bot_app [_] [_]);
      [apply typing_is_bot_user | apply typing_is_bot_bubble].
  - unfold no_session, session_string in *. cbn [sessionId].
    destruct (sessionId st) as [[|c r]|]; congruence.
  - apply Forall_app. split; [now apply tidy_remove | exact Tt].
  - rewrite user_bubbles_app, user_bubbles_remove by assumption. reflexivity.
Qed.

Lemma finish_tidy (o : fetch_outcome) (st : page) :
  log_ok st -> tidy pin (chatBox st) ->
  log_ok (run (send_finish pin o) st) /\
  count_typing (chatBox (run (send_finish pin o) st)) = O /\
  user_bubbles (chatBox (run (send_finish pin o) st)) = user_bubbles (chatBox st).
Proof.
  intros (Hc & Hb & Hs) Ht.
  destruct (send_finish_shape o st) as (k & tail & Hk & Hr & E & Es & _).
  apply rendering_facts in Hr as (T1 & T2 & T3 & _).
  destruct (iter_remove_typing_tidy k _ Ht) as [Ek _].
  destruct (iter_remove_facts k _ Hb) as (B & U & C).
  rewrite Ek in E.
  assert (C0 : count_typing (chatBox (run (send_finish pin o) st)) = O).
  { rewrite E, count_typing_app, C, T1. lia. }
  repeat split.
  - lia.
  - rewrite E. now apply typing_is_bot_app.
  - unfold no_session in *. now rewrite Es.
  - exact C0.
  - now rewrite E, user_bubbles_app, T2, app_nil_r.
Qed.
End ChatLog.

(** ** Empty input *)

(** C4.  When the input is empty once trimmed, that is when it holds white
    space only, [sendChatMessage] does nothing: nothing is handed to
    [fetch] and the page, with its log, its input field and its list of
    requests, is the one before the call. *)
Theorem blank_input_is_noop
        (pin : jsstring -> nat) (now : Z) (o : fetch_outcome) (st : page) :
  trim (userInput st) = [] ->
  forallb is_space (userInput st) = true /\
  send_begin pin now st = (Normal None, st) /\
  sendChatMessage pin now o st = (Normal tt, st).
Proof.
  intros H. split; [now apply trim_nil_iff|].
  pose proof (send_begin_blank pin now st H) as E. split; [exact E|].
  unfold sendChatMessage, bind. now rewrite E.
Qed.

Lemma blank_input_is_noop_witness :
  let st := set_userInput (js "   ") loaded_page in
  trim (userInput st) = [] /\
  sendChatMessage no_ids 8 Rejected st = (Normal tt, st).
Proof.
  split; [reflexivity|].
  apply (blank_input_is_noop no_ids 8 Rejected (set_userInput (js "   ") loaded_page)).
  reflexivity.
Defined.

(** ** Start and reset *)

(** C8.  [startNewSession] leaves a log that holds the greeting of the bot
    and nothing else, so no placeholder; the session id is minted from the
    clock, and two readings of the clock give the same id only when they
    are equal; the quick-action container, when the page has one, is
    displayed; nothing of this depends on the page before the call, and
    calling it twice is as good as calling it once. *)
Theorem start_resets_the_page (pin : jsstring -> nat) (now : Z) (st : page) :
  let st' := run (startNewSession pin now) st in
  chatBox st' = [Bubble (make_bubble GREETING bot None)] /\
  message_html (make_bubble GREETING bot None) = GREETING /\
  count_typing (chatBox st') = O /\
  sessionId st' = Some (js "session_" ++ of_Z now) /\
  categoryDisplay st' = option_map (fun _ => js "flex") (categoryDisplay st) /\
  (forall now2 st2,
      sessionId (run (startNewSession pin now2) st2) = sessionId st' <-> now2 = now) /\
  (forall st2, chatBox (run (startNewSession pin now) st2) = chatBox st') /\
  (forall now0, run (startNewSession pin now) (run (startNewSession pin now0) st) = st').
Proof.
  cbn zeta. unfold run. rewrite startNewSession_run.
  cbn [snd chatBox sessionId categoryDisplay].
  repeat split.
  - intros H. rewrite startNewSession_run in H. cbn [snd sessionId] in H.
    injection H as H. now apply of_Z_inj.
  - intros ->. now rewrite startNewSession_run.
  - intros now0. rewrite !startNewSession_run.
    cbn [snd chatBox sessionId categoryDisplay userInput requests console].
    destruct (categoryDisplay st); reflexivity.
Qed.

(** ** One user message, and the placeholder *)

(** As long as no markup in the log or in the input carries the id of the
    placeholder, a call whose input is not empty once trimmed adds exactly
    one user bubble, the one of the trimmed input, and when the call is
    over, with an answer or with a failure, the log holds no placeholder. *)
Lemma send_adds_one_user_message
      (pin : jsstring -> nat) (now : Z) (o : fetch_outcome) (st : page) :
  plain_is_plain pin -> log_ok st -> tidy pin (chatBox st) ->
  trim (userInput st) <> [] -> pin (sanitize (trim (userInput st))) = O ->
  let new := Bubble (make_bubble (trim (userInput st)) user None) in
  user_bubbles (chatBox (run (send_begin pin now) st)) = user_bubbles (chatBox st) ++ [new] /\
  user_bubbles (chatBox (run (sendChatMessage pin now o) st))
    = user_bubbles (chatBox st) ++ [new] /\
  count_typing (chatBox (run (sendChatMessage pin now o) st)) = O.
Proof.
  intros Hp Hok Ht Hn Hu. cbn zeta.
  destruct (sent_tidy pin now st Hp Hok Ht Hu) as (Hok' & Ht' & U).
  destruct (finish_tidy pin o _ Hok' Ht') as (_ & C & U').
  rewrite sendChatMessage_run, C, U', U by assumption.
  unfold run at 1. rewrite send_begin_run by assumption. now repeat split.
Qed.

(** A parser that finds the id in no markup leaves every log tidy. *)
Lemma tidy_without_ids (pin : jsstring -> nat) (l : list node) :
  (forall t, pin t = O) -> tidy pin l.
Proof.
  intros Hz. apply Forall_forall. intros n _. unfold inside_left.
  assert (Z1 : forall m, list_sum (map pin m) = O).
  { induction m as [|x m IH]; [reflexivity|].
    change (list_sum (map pin (x :: m))) with (pin x + list_sum (map pin m))%nat.
    now rewrite Hz, IH. }
  now rewrite Z1.
Qed.

(** In a browser whose parser finds the id in no markup, every state of
    the page has a log with at most one placeholder, and handling an
    answer leaves none, also when other events have come between the send
    and the answer. *)
Lemma reachable_log_ok (pin : jsstring -> nat) (st : page) :
  (forall t, pin t = O) -> reachable pin st ->
  log_ok st /\ tidy pin (chatBox st) /\
  forall o, count_typing (chatBox (run (send_finish pin o) st)) = O.
Proof.
  intros Hz Hr.
  assert (T : forall s, tidy pin (chatBox s)) by (intros s; now apply tidy_without_ids).
  assert (L : log_ok st).
  { induction Hr as [display now | e st Hr IH].
    - apply log_ok_start.
    - destruct e as [now | text | now | o]; cbn [step].
      + apply log_ok_start.
      + exact IH.
      + unfold run. destruct (eqb (trim (userInput st)) []) eqn:E.
        * apply eqb_eq in E. rewrite send_begin_blank by assumption. exact IH.
        * apply eqb_neq in E. rewrite send_begin_run by assumption.
          apply sent_tidy; [intros t _; apply Hz | assumption | apply T | apply Hz].
      + now apply finish_tidy. }
  split; [exact L|]. split; [apply T|].
  intros o. now apply finish_tidy.
Qed.

Example send_hi_adds_one_user_message :
  user_bubbles (chatBox (run (sendChatMessage no_ids 1001 Rejected)
                             (set_userInput (js "hi") loaded_page)))
  = [Bubble (make_bubble (js "hi") user None)] /\
  count_typing (chatBox (run (sendChatMessage no_ids 1001 Rejected)
                             (set_userInput (js "hi") loaded_page))) = O.
Proof.
  assert (R : reachable no_ids (set_userInput (js "hi") loaded_page)).
  { apply (reach_step no_ids (Edit (js "hi"))). apply reach_load. }
  destruct (reachable_log_ok no_ids _ (fun _ => eq_refl) R) as (Hok & Ht & _).
  destruct (send_adds_one_user_message no_ids 1001 Rejected _
              (fun _ _ => eq_refl) Hok Ht ltac:(discriminate) eq_refl)
    as (_ & U & C).
  split; [exact U | exact C].
Qed.

(** C2.  A send does not always leave the log without a placeholder: it
    does not when the text of the user carries the id of the placeholder.
    The user bubble shows the markup as it is, the lookup by id that is to
    remove the placeholder finds the element inside the user bubble first
    and removes that one, and after an answer without a reply, an empty
    one or a table, the placeholder is still in the log.  With a reply or
    a failure the placeholder is looked for once more and goes. *)
Theorem placeholder_left_behind :
  let pin := finds_id_markup in
  let st := set_userInput id_markup (run (startNewSession pin 1000) (blank (Some []))) in
  reachable pin st /\ trim (userInput st) <> [] /\
  count_typing
    (chatBox (run (sendChatMessage pin 1001 (Responded true (Parsed (JObj [])))) st))
  = 1%nat /\
  count_typing
    (chatBox (run (sendChatMessage pin 1001
                     (Responded true (Parsed (JObj [(js "table", delhi_table)])))) st))
  = 1%nat /\
  count_typing
    (chatBox (run (sendChatMessage pin 1001
                     (Responded true (Parsed (JObj [(js "reply", JStr (js "ok"))])))) st))
  = O /\
  count_typing (chatBox (run (sendChatMessage pin 1001 Rejected) st)) = O.
Proof.
  cbn zeta. split.
  - apply (reach_step finds_id_markup (Edit id_markup)). apply reach_load.
  - split; [discriminate|]. repeat split; vm_compute; reflexivity.
Qed.

(** ** The table card *)

Lemma cells_html_printable (tag : jsstring) (cells : list json) :
  forallb printable cells = true -> exists h, cells_html tag cells = Normal h.
Proof.
  induction cells as [|c r IH]; intros H; [now exists []|].
  cbn [forallb] in H. apply andb_true_iff in H as [Hc Hr].
  destruct (IH Hr) as [h Eh]. unfold printable in Hc.
  cbn [cells_html]. destruct (to_string c) as [t|e]; [|discriminate].
  cbn [cbind]. rewrite Eh. cbn [cbind]. eauto.
Qed.

Lemma row_html_printable (tag : jsstring) (row : json) :
  is_row row = true -> exists h, row_html tag (Some row) = Normal h.
Proof.
  destruct row; try discriminate. intros H.
  destruct (cells_html_printable tag _ H) as [h Eh].
  cbn [row_html]. rewrite Eh. cbn [cbind]. eauto.
Qed.

Lemma rows_html_printable (rows : list json) (ixs : list nat) :
  forallb is_row rows = true ->
  Forall (fun i => (i < length rows)%nat) ixs ->
  exists h, rows_html (JArr rows) ixs = Normal h.
Proof.
  intros Hrows. induction 1 as [|i ixs Hi Hixs [h Eh]]; [now exists []|].
  cbn [rows_html index].
  destruct (nth_error rows i) as [row|] eqn:E;
    [|apply nth_error_None in E; lia].
  assert (Hrow : is_row row = true).
  { rewrite forallb_forall in Hrows. apply Hrows. eapply nth_error_In. eassumption. }
  destruct (row_html_printable (js "td") row Hrow) as [h' Eh'].
  rewrite Eh', Eh. cbn [cbind]. eauto.
Qed.

Lemma row_indices_array (rows : list json) :
  row_indices (JArr rows) = Normal (seq 1 (length rows - 1)).
Proof.
  unfold row_indices. cbn [length_of to_number cbind].
  now rewrite Nat2Z.id.
Qed.

Lemma table_markup_payload (t : json) :
  is_table_payload t = true -> exists h, table_markup t = Normal h.
Proof.
  destruct t as [| | | |[|r rows]|]; try discriminate. intros H.
  unfold table_markup. rewrite row_indices_array.
  cbn [index nth_error].
  pose proof H as H'. cbn [is_table_payload forallb] in H'.
  apply andb_true_iff in H' as [Hr _].
  destruct (row_html_printable (js "th") r Hr) as [h Eh]. rewrite Eh. cbn [cbind].
  destruct (rows_html_printable (r :: rows) (seq 1 (length (r :: rows) - 1)) H) as [h' Eh'].
  { apply Forall_forall. intros i Hi. apply in_seq in Hi. cbn [length] in *. lia. }
  rewrite Eh'. cbn [cbind]. eauto.
Qed.

Lemma show_lookup_strings (k : jsstring) (fs : list (jsstring * json)) :
  forallb (fun kx => is_string (snd kx)) fs = true ->
  exists s, show (lookup k fs) = Normal s.
Proof.
  induction fs as [|[k' v] fs IH]; intros H; [now exists (js "undefined")|].
  cbn [forallb] in H. apply andb_true_iff in H as [Hv Hfs]. cbn [snd] in Hv.
  cbn [lookup]. destruct (eqb k k'); [|now apply IH].
  destruct v; try discriminate. cbn [show to_string]. eauto.
Qed.

Lemma make_meta_box_payload (m : value) :
  is_meta_payload m = true -> exists b, make_meta_box (Some (or_null m)) = Normal b.
Proof.
  destruct m as [[| | | | |fs]|]; try discriminate; intros H;
    try (exists None; reflexivity).
  cbn [or_null truthy]. unfold make_meta_box. cbn [truthy].
  unfold meta_markup. cbn [field cbind].
  destruct (show_lookup_strings (js "state") fs H) as [s1 E1].
  destruct (show_lookup_strings (js "act_name") fs H) as [s2 E2].
  destruct (show_lookup_strings (js "da") fs H) as [s3 E3].
  destruct (show_lookup_strings (js "effective_from") fs H) as [s4 E4].
  destruct (show_lookup_strings (js "pdf_url") fs H) as [s5 E5].
  rewrite E1. cbn [cbind]. rewrite E2. cbn [cbind]. rewrite E3. cbn [cbind].
  rewrite E4. cbn [cbind].
  destruct (truthy (lookup (js "pdf_url") fs)); [|eauto].
  rewrite E5. cbn [cbind]. eauto.
Qed.

(** A table and a meta object of the wire format always give a card. *)
Lemma make_card_payload (t : json) (m : value) :
  is_table_payload t = true -> is_meta_payload m = true ->
  exists c, make_card t (or_null m) = Normal c.
Proof.
  intros Ht Hm. unfold make_card.
  destruct (make_meta_box_payload m Hm) as [b Eb]. rewrite Eb. cbn [cbind].
  destruct (table_markup_payload t Ht) as [h Eh]. rewrite Eh. cbn [cbind]. eauto.
Qed.

Lemma table_present_payload (t : json) :
  is_table_payload t = true -> table_present (Some t) = Normal true.
Proof.
  destruct t as [| | | |[|r rows]|]; try discriminate. intros _.
  reflexivity.
Qed.

(** When the answer carries a table, the page after the answer depends on
    the table and the meta object only. *)
Lemma table_card_rendered (pin : jsstring -> nat) (fs : list (jsstring * json))
      (t : json) (c : card) (st : page) :
  lookup (js "table") fs = Some t ->
  table_present (Some t) = Normal true ->
  make_card t (or_null (lookup (js "meta") fs)) = Normal c ->
  run (send_finish pin (Responded true (Parsed (JObj fs)))) st
  = set_chatBox (remove_typing pin (chatBox st) ++ [Card c]) st.
Proof.
  intros Ht Hp Hc. unfold run, send_finish, try_catch. cbn [on_response].
  unfold bind at 1. rewrite removeTypingIndicator_run.
  unfold bind at 1, lift at 1. cbn [field]. rewrite Ht.
  unfold bind at 1, lift at 1. rewrite Hp.
  unfold bind, lift, addTableToChat. cbn [field]. rewrite Hc.
  reflexivity.
Qed.

(** C1.  An answer that carries a table of the wire format, not empty, and
    a reply that is not blank adds the card of the table to the log and
    nothing else: the reply is not shown.  And whatever the answer is,
    handling it adds at most one node to the log: nothing, a card or one
    text bubble. *)
Theorem table_takes_precedence
        (pin : jsstring -> nat) (fs : list (jsstring * json)) (t : json)
        (r : jsstring) (st : page) :
  lookup (js "table") fs = Some t -> is_table_payload t = true ->
  is_meta_payload (lookup (js "meta") fs) = true ->
  lookup (js "reply") fs = Some (JStr r) -> trim r <> [] ->
  (exists c,
      make_card t (or_null (lookup (js "meta") fs)) = Normal c /\
      run (send_finish pin (Responded true (Parsed (JObj fs)))) st
      = set_chatBox (remove_typing pin (chatBox st) ++ [Card c]) st) /\
  (forall o st0,
      exists k added,
        (1 <= k)%nat /\
        chatBox (run (send_finish pin o) st0)
        = Nat.iter k (remove_typing pin) (chatBox st0) ++ added /\
        rendering added /\ (length added <= 1)%nat).
Proof.
  intros Ht Hp Hm _ _. split.
  - destruct (make_card_payload t _ Hp Hm) as [c Hc]. exists c. split; [exact Hc|].
    apply table_card_rendered with (t := t);
      [assumption | now apply table_present_payload | assumption].
  - intros o st0. destruct (send_finish_shape pin o st0) as (k & tail & Hk & Hr & E & _).
    exists k, tail. repeat split; [assumption.. | now apply rendering_facts].
Qed.

Lemma table_takes_precedence_witness :
  exists c,
    run (send_finish no_ids (Responded true (Parsed (JObj delhi_answer)))) (blank None)
    = set_chatBox [Card c] (blank None).
Proof.
  destruct (table_takes_precedence no_ids delhi_answer delhi_table (js "Here are the wages")
              (blank None) eq_refl eq_refl eq_refl eq_refl
              ltac:(discriminate)) as [(c & _ & E) _].
  exists c. exact E.
Defined.

(** ** Answers that hold nothing to show *)

(** C3, as stated, fails: a body that is not JSON makes [response.json()]
    throw inside the [try] block, and the handler shows the apology and
    reports the error. *)
Lemma malformed_body_not_silent :
  ~ silent_turn no_ids (Responded true BadJson) waiting_page /\
  chatBox (run (send_finish no_ids (Responded true BadJson)) waiting_page)
  = [Bubble (make_bubble GREETING bot None);
     Bubble (make_bubble (js "hi") user None);
     Bubble (make_bubble APOLOGY bot None)] /\
  console (run (send_finish no_ids (Responded true BadJson)) waiting_page)
  = [(js "Chat Error:", SyntaxError)].
Proof.
  split; [|split; reflexivity].
  unfold silent_turn. intros H.
  apply (f_equal (fun p => length (chatBox p))) in H.
  vm_compute in H. discriminate.
Qed.

Lemma lookup_has_key (k : jsstring) (fs : list (jsstring * json)) :
  has_key k fs = false -> lookup k fs = None.
Proof.
  induction fs as [|[k' v] fs IH]; [reflexivity|].
  cbn [has_key existsb fst lookup]. intros H.
  apply orb_false_iff in H as [H1 H2]. rewrite H1. now apply IH.
Qed.

Lemma quiet_table_absent (v : value) :
  quiet_table v = true -> table_present v = Normal false.
Proof.
  unfold quiet_table, table_present. intros H.
  destruct v as [t|]; [|reflexivity].
  destruct (truthy (Some t)) eqn:T; [|reflexivity]. cbn [negb orb] in H.
  destruct t as [| | | |[|x l]|fs]; try discriminate; try reflexivity.
  cbn [length_of]. apply negb_true_iff in H. now rewrite lookup_has_key.
Qed.

Lemma show_reply_quiet (pin : jsstring -> nat) (data : json) (st : page) :
  data <> JNull -> quiet_reply (opt_field (js "reply") (Some data)) = true ->
  show_reply pin data st = (Normal tt, st).
Proof.
  intros Hn H. unfold show_reply, bind, lift.
  assert (E : field (js "reply") (Some data)
              = Normal (opt_field (js "reply") (Some data))).
  { destruct data; try reflexivity. congruence. }
  rewrite E. unfold quiet_reply in H.
  destruct (truthy (opt_field (js "reply") (Some data))); [|reflexivity].
  cbn [negb orb] in H.
  destruct (opt_field (js "reply") (Some data)) as [[| | |r| |]|]; try discriminate.
  now rewrite H.
Qed.

(** C3, amended.  An answer with a success status whose body is a JSON
    value other than [null], with a [table] that is absent, falsy, an empty
    array or without a length, and a [reply] that is absent, falsy or a
    blank string, is an empty turn: the placeholder goes, nothing is added
    to the log and nothing is reported.  A body that is not JSON is
    handled as a failure: the error is reported to the console and the
    apology is shown. *)
Theorem empty_answer_is_silent (pin : jsstring -> nat) (data : json) (st : page) :
  data <> JNull ->
  quiet_table (opt_field (js "table") (Some data)) = true ->
  quiet_reply (opt_field (js "reply") (Some data)) = true ->
  silent_turn pin (Responded true (Parsed data)) st /\
  run (send_finish pin (Responded true BadJson)) st
  = console_error (js "Chat Error:") SyntaxError
      (set_chatBox (remove_typing pin (remove_typing pin (chatBox st))
                   ++ [Bubble (make_bubble APOLOGY bot None)]) st).
Proof.
  intros Hn Ht Hr. split; [|reflexivity].
  unfold silent_turn, run, send_finish, try_catch. cbn [on_response].
  unfold bind at 1. rewrite removeTypingIndicator_run.
  unfold bind at 1, lift at 1.
  assert (E : field (js "table") (Some data)
              = Normal (opt_field (js "table") (Some data))).
  { destruct data; try reflexivity. congruence. }
  rewrite E. unfold bind at 1, lift at 1.
  rewrite (quiet_table_absent _ Ht).
  destruct (opt_field (js "table") (Some data));
    rewrite show_reply_quiet by assumption; reflexivity.
Qed.

Lemma empty_answer_is_silent_witness :
  silent_turn no_ids (Responded true (Parsed (JObj [(js "status", JStr (js "ok"))])))
              waiting_page.
Proof.
  apply (empty_answer_is_silent no_ids (JObj [(js "status", JStr (js "ok"))]) waiting_page).
  - discriminate.
  - reflexivity.
  - reflexivity.
Defined.

(** ** What a bubble shows *)

(** What the filter of [addMessageToChatbox] does: the bubble shows the
    text without the code units that lie inside a substring matching
    [<img[^>]*>], nothing else being deleted and the order being kept,
    and then trimmed: only white space is cut at both ends, and what is
    left neither starts nor ends with white space. *)
Lemma bubble_strips_matches
      (pin : jsstring -> nat) (text : jsstring) (who : sender)
      (id : option jsstring) (st : page) :
  let b := make_bubble text who id in
  chatBox (run (addMessageToChatbox pin text who id) st)
  = (if is_typing_id id then chatBox st else remove_typing pin (chatBox st))
    ++ [Bubble b] /\
  message_html b = trim (strip_img text) /\
  strip_img text = keep_unmasked (img_mask text) text /\
  length (img_mask text) = length text /\
  (forall i, nth i (img_mask text) false = true <-> in_img_tag text i) /\
  exists l r,
    strip_img text = l ++ message_html b ++ r /\
    forallb is_space l = true /\ forallb is_space r = true /\
    no_space_head (message_html b) /\ no_space_head (rev (message_html b)).
Proof.
  cbn zeta. unfold run. rewrite addMessageToChatbox_run.
  repeat split.
  - apply strip_aux_mask.
  - apply mask_aux_length.
  - apply img_mask_spec.
  - apply img_mask_spec.
  - apply trim_split.
Qed.

(** C6.  Not every image tag is kept out of a bubble.  The replace makes
    one pass, so the text around a tag it deletes can close up to a new
    tag, which matches the very pattern of the filter and is shown; and
    the pattern is in lower case, so a tag written in upper case is shown
    as it is. *)
Theorem image_tag_reaches_the_bubble :
  message_html (make_bubble (js "<im<img>g src=x>") bot None) = js "<img src=x>" /\
  match_img (message_html (make_bubble (js "<im<img>g src=x>") bot None)) = Some 11%nat /\
  in_img_tag (message_html (make_bubble (js "<im<img>g src=x>") bot None)) 0 /\
  message_html (make_bubble (js "<IMG src=x>") bot None) = js "<IMG src=x>".
Proof.
  repeat split.
  exists [], (js "<img src=x>"), []. repeat split; [|cbn; lia..].
  exists (js " src=x"). split; [reflexivity|]. cbn. intuition discriminate.
Qed.

(** ** The PDF export *)

Section ExportFacts.
Variable env : pdf_env.

Lemma saves_nothing_api (c : pdf_call) :
  is_save c = false -> saves_nothing (api env c).
Proof.
  intros H tr r tr' E. unfold api in E.
  destruct (api_fails env (length tr)); injection E as <- <-.
  - exists []. now rewrite app_nil_r.
  - exists [c]. cbn [existsb]. now rewrite H.
Qed.

Lemma saves_nothing_dret {A} (a : A) : saves_nothing (dret a).
Proof. intros tr r tr' E. injection E as <- <-. exists []. now rewrite app_nil_r. Qed.

Lemma saves_nothing_dlift {A} (c : completion A) : saves_nothing (dlift c).
Proof. intros tr r tr' E. injection E as <- <-. exists []. now rewrite app_nil_r. Qed.

Lemma saves_nothing_dbind {A B} (m : Doc A) (k : A -> Doc B) :
  saves_nothing m -> (forall a, saves_nothing (k a)) -> saves_nothing (dbind m k).
Proof.
  intros Hm Hk tr r tr' E. unfold dbind in E.
  destruct (m tr) as [[a|e] tr1] eqn:Em; apply Hm in Em as (ext1 & -> & S1).
  - apply Hk in E as (ext2 & -> & S2). exists (ext1 ++ ext2).
    rewrite app_assoc, existsb_app, S1, S2. now split.
  - injection E as <- <-. exists ext1. now split.
Qed.

Lemma saves_last_dbind {A} (P : jsstring -> Prop) (m : Doc A) (k : A -> Doc unit) :
  saves_nothing m -> (forall a, saves_last P (k a)) -> saves_last P (dbind m k).
Proof.
  intros Hm Hk tr r tr' E. unfold dbind in E.
  destruct (m tr) as [[a|e] tr1] eqn:Em; apply Hm in Em as (ext1 & -> & S1).
  - apply Hk in E as (ext2 & -> & [(-> & pre & name & -> & S2 & Hp) | ((e & ->) & S2)]).
    + exists (ext1 ++ pre ++ [Save name]). split; [now rewrite !app_assoc|].
      left. split; [reflexivity|]. exists (ext1 ++ pre), name.
      rewrite existsb_app, S1, S2, app_assoc. now repeat split.
    + exists (ext1 ++ ext2). split; [now rewrite app_assoc|].
      right. split; [now exists e|]. now rewrite existsb_app, S1, S2.
  - injection E as <- <-. exists ext1. split; [reflexivity|].
    right. split; [now exists e | assumption].
Qed.

Lemma saves_last_save (P : jsstring -> Prop) (name : jsstring) :
  P name -> saves_last P (api env (Save name)).
Proof.
  intros Hp tr r tr' E. unfold api in E.
  destruct (api_fails env (length tr)); injection E as <- <-.
  - exists []. split; [now rewrite app_nil_r|]. right. split; [now exists ApiError | reflexivity].
  - exists [Save name]. split; [reflexivity|]. left. split; [reflexivity|].
    exists [], name. now repeat split.
Qed.

Lemma saves_nothing_meta_block (meta : value) (y : Z) :
  saves_nothing (meta_block env meta y).
Proof.
  unfold meta_block. destruct (truthy meta); [|apply saves_nothing_dret].
  repeat (first [ apply saves_nothing_dbind; [|intros ?]
                | apply saves_nothing_api; reflexivity
                | apply saves_nothing_dlift
                | apply saves_nothing_dret
                | match goal with |- saves_nothing (if ?b then _ else _) => destruct b end ]).
Qed.

Lemma saves_last_dlift {A} (P : jsstring -> Prop) (c : completion A) (k : A -> Doc unit) :
  (forall a, c = Normal a -> saves_last P (k a)) -> saves_last P (dbind (dlift c) k).
Proof.
  intros Hk tr r tr' E. unfold dbind, dlift in E. destruct c as [a|e].
  - eapply Hk; [reflexivity | eassumption].
  - injection E as <- <-. exists []. split; [now rewrite app_nil_r|].
    right. split; [now exists e | reflexivity].
Qed.

(** The [try] block saves at most once, as its last call, and under the
    name the template gives. *)
Lemma export_try_saves_last (tableData meta : value) :
  saves_last (fun name => file_name meta = Normal name)
             (export_try env tableData meta).
Proof.
  unfold export_try.
  do 15 (apply saves_last_dbind;
         [first [ apply saves_nothing_api; reflexivity
                | apply saves_nothing_dlift
                | apply saves_nothing_meta_block ]
         | intros ?]).
  apply saves_last_dlift. intros name E. now apply saves_last_save.
Qed.

Lemma saved_app (tr ext : list pdf_call) (l : list (jsstring * js_error)) (a : list jsstring) :
  saved {| calls := tr ++ ext; logged := l; alerts := a |}
  = saved {| calls := tr; logged := l; alerts := a |}
    ++ saved {| calls := ext; logged := l; alerts := a |}.
Proof. unfold saved. cbn [calls]. apply flat_map_app. Qed.

Lemma saved_none (ext : list pdf_call) (l : list (jsstring * js_error)) (a : list jsstring) :
  existsb is_save ext = false ->
  saved {| calls := ext; logged := l; alerts := a |} = [].
Proof.
  unfold saved. cbn [calls]. induction ext as [|c ext IH]; [reflexivity|].
  cbn [existsb flat_map]. intros H. apply orb_false_iff in H as [Hc He].
  destruct c; try discriminate; now apply IH.
Qed.

(** What an export leaves, by the way its [try] block ends. *)
Lemma downloadTableAsPDF_cases (tableData meta : value) :
  let r := downloadTableAsPDF env tableData meta in
  (exists e tr,
      export_try env tableData (default_meta meta) [] = (Throw e, tr) /\
      r = {| calls := tr; logged := [(js "PDF Error:", e)]; alerts := [ALERT] |} /\
      saved r = [])
  \/
  (exists pre name,
      export_try env tableData (default_meta meta) [] = (Normal tt, pre ++ [Save name]) /\
      r = {| calls := pre ++ [Save name]; logged := []; alerts := [] |} /\
      file_name (default_meta meta) = Normal name /\
      saved r = [name]).
Proof.
  cbn zeta. unfold downloadTableAsPDF.
  destruct (export_try env tableData (default_meta meta) []) as [c tr] eqn:E.
  pose proof (export_try_saves_last _ _ _ _ _ E) as (ext & -> & H).
  cbn [app] in *.
  destruct H as [(-> & pre & name & -> & S & Hn) | ((e & ->) & S)].
  - right. exists pre, name. repeat split; [assumption|].
    rewrite saved_app, saved_none by assumption. reflexivity.
  - left. exists e, ext. repeat split. now apply saved_none.
Qed.
End ExportFacts.

(** C5.  When a step of the [try] block of the export throws, a call of
    the library or a read of the data, no [save] is called, so no file is
    offered, the error is logged once and one alert is shown.  A file is
    offered only by an export whose [try] block has run to its end, and
    then it is one file and nothing is logged or alerted. *)
Theorem failed_export_offers_no_file
        (env : pdf_env) (tableData meta : value) (e : js_error) (tr : list pdf_call) :
  export_try env tableData (default_meta meta) [] = (Throw e, tr) ->
  let r := downloadTableAsPDF env tableData meta in
  saved r = [] /\ existsb is_save (calls r) = false /\
  calls r = tr /\
  logged r = [(js "PDF Error:", e)] /\
  alerts r = [ALERT] /\
  (forall env' t' m' name,
      In name (saved (downloadTableAsPDF env' t' m')) ->
      exists pre,
        export_try env' t' (default_meta m') [] = (Normal tt, pre ++ [Save name]) /\
        existsb is_save pre = false /\
        downloadTableAsPDF env' t' m'
        = {| calls := pre ++ [Save name]; logged := []; alerts := [] |}).
Proof.
  intros E. cbn zeta.
  pose proof (export_try_saves_last env _ _ _ _ _ E) as (ext & Htr & H).
  cbn [app] in Htr. subst ext.
  destruct H as [(C & _) | (_ & S)]; [discriminate|].
  unfold downloadTableAsPDF. rewrite E.
  cbn [calls logged alerts]. repeat split; try assumption.
  - now apply saved_none.
  - intros env' t' m' name Hin. unfold downloadTableAsPDF in Hin |- *.
    destruct (export_try env' t' (default_meta m') []) as [c tr'] eqn:E'.
    pose proof (export_try_saves_last env' _ _ _ _ _ E') as (ext & -> & H).
    cbn [app] in *.
    destruct H as [(-> & pre & name' & -> & S' & Hn) | ((e' & ->) & S')].
    + rewrite saved_app, saved_none in Hin by assumption.
      cbn in Hin. destruct Hin as [<-|[]]. exists pre. now repeat split.
    + rewrite saved_none in Hin by assumption. destruct Hin.
Qed.

Lemma failed_export_offers_no_file_witness :
  saved (downloadTableAsPDF faulty_env (Some delhi_table) (Some delhi_meta)) = [] /\
  alerts (downloadTableAsPDF faulty_env (Some delhi_table) (Some delhi_meta)) = [ALERT].
Proof.
  edestruct (failed_export_offers_no_file faulty_env (Some delhi_table) (Some delhi_meta))
    as (H1 & _ & _ & _ & H5 & _).
  - vm_compute. reflexivity.
  - split; assumption.
Defined.

(** *** A library that works *)

Lemma dbind_api_ok {B} (env : pdf_env) (c : pdf_call) (k : unit -> Doc B)
      (tr : list pdf_call) :
  (forall n, api_fails env n = false) ->
  dbind (api env c) k tr = k tt (tr ++ [c]).
Proof. intros H. unfold dbind, api. now rewrite H. Qed.

Lemma dbind_dlift {A B} (a : A) (k : A -> Doc B) (tr : list pdf_call) :
  dbind (dlift (Normal a)) k tr = k a tr.
Proof. reflexivity. Qed.

Lemma dbind_dret {A B} (a : A) (k : A -> Doc B) (tr : list pdf_call) :
  dbind (dret a) k tr = k a tr.
Proof. reflexivity. Qed.

(** C10.  With a library that works, the export of a table that has at
    least one row and no meta object, [null] or left out, runs to its end:
    the titles, the table from the cursor the titles leave, the
    disclaimer below the table and the save under the fallback name are
    the calls it makes, none of them writes a line of the meta block, and
    nothing is logged or alerted. *)
Theorem export_without_meta (env : pdf_env) (row : json) (rows : list json) :
  sound_env env ->
  exists y,
    final_y env = Some y /\
    downloadTableAsPDF env (Some (JArr (row :: rows))) (Some JNull)
    = {| calls := title_calls
                  ++ table_calls (Some row) (JArr rows) 30 y (js "Wage_Details_.pdf");
         logged := []; alerts := [] |} /\
    downloadTableAsPDF env (Some (JArr (row :: rows))) None
    = downloadTableAsPDF env (Some (JArr (row :: rows))) (Some JNull).
Proof.
  intros [Hapi Hy]. destruct (final_y env) as [y|] eqn:Ey; [|congruence].
  exists y. split; [reflexivity|]. split; [|reflexivity].
  unfold downloadTableAsPDF, export_try.
  rewrite !dbind_api_ok by assumption.
  cbn [default_meta]. unfold meta_block. cbn [truthy]. rewrite dbind_dret.
  cbn [head_row index nth_error slice_1 tl]. rewrite !dbind_dlift.
  rewrite dbind_api_ok by assumption.
  rewrite Ey, dbind_dlift.
  rewrite !dbind_api_ok by assumption.
  cbn [file_name]. unfold dbind, dlift, api. cbn. rewrite Hapi. reflexivity.
Qed.

Lemma working_env_sound : sound_env working_env.
Proof. split; [reflexivity | discriminate]. Qed.

Lemma export_without_meta_witness :
  saved (downloadTableAsPDF working_env (Some delhi_table) (Some JNull))
  = [js "Wage_Details_.pdf"].
Proof.
  destruct (export_without_meta working_env
              (JArr [JStr (js "State"); JStr (js "Rate")])
              [JArr [JStr (js "Delhi"); JStr (js "500")]]
              working_env_sound) as (y & _ & E & _).
  unfold delhi_table. rewrite E. reflexivity.
Defined.

(** *** The name of the file *)

Lemma lookup_payload (k : jsstring) (fs : list (jsstring * json)) (v : json) :
  forallb (fun kx => is_string (snd kx)) fs = true ->
  lookup k fs = Some v -> is_string v = true.
Proof.
  induction fs as [|[k' x] fs IH]; intros H E; [discriminate|].
  cbn [forallb snd] in H. apply andb_true_iff in H as [Hx Hfs].
  cbn [lookup] in E. destruct (eqb k k'); [congruence | now apply IH].
Qed.

Lemma file_name_payload (meta : value) :
  is_meta_payload meta = true ->
  file_name (default_meta meta) = Normal (spec_file_name meta).
Proof.
  unfold file_name, spec_file_name.
  destruct meta as [[| | | | |fs]|]; try discriminate; try reflexivity.
  cbn [is_meta_payload default_meta opt_field]. intros H.
  destruct (lookup (js "state") fs) as [v|] eqn:E; [|reflexivity].
  apply (lookup_payload _ _ _ H) in E. destruct v as [| | |[|c s]| |]; try discriminate;
    reflexivity.
Qed.

Lemma succeeds_dbind {A B} (m : Doc A) (k : A -> Doc B) :
  succeeds m -> (forall a, succeeds (k a)) -> succeeds (dbind m k).
Proof.
  intros Hm Hk tr. destruct (Hm tr) as (a & tr1 & E).
  destruct (Hk a tr1) as (b & tr2 & E'). exists b, tr2.
  unfold dbind. now rewrite E.
Qed.

Lemma succeeds_api (env : pdf_env) (c : pdf_call) :
  (forall n, api_fails env n = false) -> succeeds (api env c).
Proof. intros H tr. exists tt, (tr ++ [c]). unfold api. now rewrite H. Qed.

Lemma succeeds_dlift {A} (a : A) : succeeds (dlift (Normal a)).
Proof. intros tr. now exists a, tr. Qed.

Lemma succeeds_dret {A} (a : A) : succeeds (dret a).
Proof. intros tr. now exists a, tr. Qed.

Lemma succeeds_dlift_dbind {A B} (a : A) (k : A -> Doc B) :
  succeeds (k a) -> succeeds (dbind (dlift (Normal a)) k).
Proof. intros H tr. exact (H tr). Qed.

Lemma succeeds_meta_block (env : pdf_env) (meta : value) (y : Z) :
  (forall n, api_fails env n = false) -> is_meta_payload meta = true ->
  succeeds (meta_block env (default_meta meta) y).
Proof.
  intros Hapi Hm.
  destruct meta as [[| | | | |fs]|]; try discriminate; try apply succeeds_dret.
  cbn [default_meta is_meta_payload] in *. unfold meta_block. cbn [truthy field cbind].
  destruct (show_lookup_strings (js "state") fs Hm) as [s1 E1].
  destruct (show_lookup_strings (js "effective_from") fs Hm) as [s2 E2].
  destruct (show_lookup_strings (js "pdf_url") fs Hm) as [s3 E3].
  rewrite E1, E2.
  repeat (first [ apply succeeds_dret
                | apply succeeds_api; assumption
                | apply succeeds_dlift
                | apply succeeds_dlift_dbind
                | apply succeeds_dbind; [|intros ?]
                | rewrite E3
                | match goal with |- succeeds (if ?b then _ else _) => destruct b end ]).
Qed.

Lemma export_try_succeeds (env : pdf_env) (rows : list json) (meta : value) :
  sound_env env -> is_meta_payload meta = true ->
  succeeds (export_try env (Some (JArr rows)) (default_meta meta)).
Proof.
  intros [Hapi Hy] Hm. unfold export_try.
  destruct (final_y env) as [y|]; [|congruence].
  rewrite (file_name_payload meta Hm). cbn [head_row slice_1].
  repeat (first [ apply succeeds_dbind; [|intros ?]
                | apply succeeds_api; assumption
                | apply succeeds_dlift
                | now apply succeeds_meta_block ]).
Qed.

(** C7.  With a library that works, the export of an array under a meta
    object of the wire format, or under none, offers one file, and its
    name is the one of the specification: made from [meta.state] when the
    meta object has a state that is not empty, the fallback otherwise.
    So the name depends on the state alone, not on the table, the rest of
    the meta object or the run, and for the state "Delhi" it is
    "Wage_Details_Delhi.pdf". *)
Theorem export_file_name (env : pdf_env) (rows : list json) (meta : value) :
  sound_env env -> is_meta_payload meta = true ->
  saved (downloadTableAsPDF env (Some (JArr rows)) meta) = [spec_file_name meta] /\
  (forall meta', opt_field (js "state") meta' = opt_field (js "state") meta ->
                 spec_file_name meta' = spec_file_name meta) /\
  (opt_field (js "state") meta = Some (JStr (js "Delhi")) ->
   spec_file_name meta = js "Wage_Details_Delhi.pdf") /\
  (opt_field (js "state") meta = None ->
   spec_file_name meta = js "Wage_Details_.pdf").
Proof.
  intros Hs Hm. split; [|repeat split].
  - destruct (downloadTableAsPDF_cases env (Some (JArr rows)) meta)
      as [(e & tr & E & _) | (pre & name & _ & _ & En & ->)].
    + destruct (export_try_succeeds env rows meta Hs Hm []) as (a & tr' & E').
      congruence.
    + rewrite file_name_payload in En by assumption. congruence.
  - intros meta' E. unfold spec_file_name. now rewrite E.
  - intros E. unfold spec_file_name. now rewrite E.
  - intros E. unfold spec_file_name. now rewrite E.
Qed.

Lemma export_file_name_witness :
  saved (downloadTableAsPDF working_env (Some delhi_table) (Some delhi_meta))
  = [js "Wage_Details_Delhi.pdf"].
Proof.
  exact (proj1 (export_file_name working_env
                  [JArr [JStr (js "State"); JStr (js "Rate")];
                   JArr [JStr (js "Delhi"); JStr (js "500")]]
                  (Some delhi_meta) working_env_sound eq_refl)).
Defined.

(** ** The download button *)

Lemma make_card_attributes (t m : json) (c : card) :
  make_card t m = Normal c ->
  data_tabledata c = stringify t /\ data_meta c = stringify m.
Proof.
  unfold make_card. destruct (make_meta_box (Some m)) as [b|e]; [|discriminate].
  cbn [cbind]. destruct (table_markup t) as [h|e]; [|discriminate].
  cbn [cbind]. intros E. injection E as <-. now split.
Qed.

Lemma button_data_remove_typing (pin : jsstring -> nat)
      (d : jsstring * jsstring) (l : list node) :
  In (Some d) (map button_data l) ->
  In (Some d) (map button_data (remove_typing pin l)).
Proof.
  induction l as [|n l IH]; intros H; [destruct H|].
  cbn [remove_typing]. cbn [map] in H. destruct H as [H|H].
  - destruct n as [b|c]; [discriminate|].
    cbn [has_id node_id]. destruct (0 <? inside_left pin (Card c))%nat; now left.
  - destruct (has_id TYPING_ID n); [assumption|].
    destruct (0 <? inside_left pin n)%nat; right; [assumption | now apply IH].
Qed.

(** What the button of a card holds stays in the log, as it is, until the
    chat is started anew. *)
Lemma button_data_stays (pin : jsstring -> nat) (d : jsstring * jsstring)
      (e : event) (st : page) :
  log_ok st -> (forall now, e <> Refresh now) ->
  In (Some d) (map button_data (chatBox st)) ->
  In (Some d) (map button_data (chatBox (step pin e st))).
Proof.
  intros Hok Hr Hin. destruct e as [now | text | now | o]; cbn [step].
  - now destruct (Hr now).
  - exact Hin.
  - unfold run. destruct (eqb (trim (userInput st)) []) eqn:E.
    + apply eqb_eq in E. now rewrite send_begin_blank.
    + apply eqb_neq in E. rewrite send_begin_run by assumption.
      destruct Hok as (_ & _ & Hs). unfold sent_page. rewrite Hs.
      cbn [snd chatBox]. rewrite map_app. apply in_or_app. left.
      now apply button_data_remove_typing.
  - destruct (send_finish_shape pin o st) as (k & tail & _ & _ & E & _).
    rewrite E, map_app. apply in_or_app. left. clear E.
    induction k as [|k IH]; [assumption|].
    change (Nat.iter (S k) ?f (chatBox st)) with (f (Nat.iter k f (chatBox st))).
    now apply button_data_remove_typing.
Qed.

(** C9.  For a table and a meta value that a JavaScript engine can hold,
    [null] for a meta object that is absent: the card that
    [addTableToChat] appends keeps both as JSON text in the attributes of
    its button, and a click on the button reads them back and calls the
    export with that very table and that very meta value.  Writing and
    reading back is the identity on both.  Such a card exists for every
    table and meta object of the wire format. *)
Theorem download_button_round_trip (t m : json) (st : page) :
  wf_json t -> wf_json m ->
  parse (stringify t) = Some t /\ parse (stringify m) = Some m /\
  (forall c, make_card t m = Normal c ->
     addTableToChat t m st = (Normal tt, appendChild (Card c) st) /\
     click_arguments c = Normal (t, m) /\
     forall env, click_download env c
                 = Normal (downloadTableAsPDF env (Some t) (Some m))) /\
  (is_table_payload t = true -> is_meta_payload (Some m) = true ->
   exists c, make_card t m = Normal c).
Proof.
  intros Ht Hm.
  pose proof (parse_stringify t Ht) as Pt. pose proof (parse_stringify m Hm) as Pm.
  repeat split; try assumption.
  - unfold addTableToChat, bind, lift. now rewrite H.
  - apply make_card_attributes in H as [E1 E2].
    unfold click_arguments. now rewrite E1, E2, Pt, Pm.
  - intros env. apply make_card_attributes in H as [E1 E2].
    unfold click_download, click_arguments. now rewrite E1, E2, Pt, Pm.
  - intros Hp Hq. destruct (make_card_payload t (Some m) Hp Hq) as [c Hc].
    exists c. destruct m; try discriminate; exact Hc.
Qed.

Lemma delhi_wf : wf_json delhi_table /\ wf_json delhi_meta.
Proof. split; wf_closed. Qed.

Lemma download_button_round_trip_witness :
  exists c,
    make_card delhi_table delhi_meta = Normal c /\
    click_arguments c = Normal (delhi_table, delhi_meta).
Proof.
  destruct (download_button_round_trip delhi_table delhi_meta (blank None)
              (proj1 delhi_wf) (proj2 delhi_wf)) as (_ & _ & H & Hex).
  destruct (Hex eq_refl eq_refl) as [c Hc]. exists c. split; [exact Hc|].
  exact (proj1 (proj2 (H c Hc))).
Defined.

(** * More of the script *)

(** ** Sessions *)

Lemma run_startNewSession_session (pin : jsstring -> nat) (now : Z) (st : page) :
  sessionId (run (startNewSession pin now) st) = Some (js "session_" ++ of_Z now).
Proof. unfold run. now rewrite startNewSession_run. Qed.

Lemma session_of_clock_set (now : Z) (st : page) :
  sessionId st = Some (js "session_" ++ of_Z now) -> no_session st = false.
Proof. unfold no_session. now intros ->. Qed.

Lemma step_keeps_session (pin : jsstring -> nat) (e : event) (st : page) :
  no_session st = false -> is_refresh e = false ->
  sessionId (step pin e st) = sessionId st.
Proof.
  intros Hs He. destruct e as [now | text | now | o]; cbn [step]; try discriminate.
  - reflexivity.
  - unfold run. destruct (eqb (trim (userInput st)) []) eqn:E.
    + apply eqb_eq in E. now rewrite send_begin_blank.
    + apply eqb_neq in E. rewrite send_begin_run by assumption.
      unfold sent_page. rewrite Hs. cbn [snd sessionId].
      unfold no_session, session_string in *.
      destruct (sessionId st) as [[|c r]|]; cbn in *; try discriminate; reflexivity.
  - now destruct (send_finish_shape pin o st) as (k & tail & _ & _ & _ & Es & _).
Qed.

Lemma reachable_session (pin : jsstring -> nat) (st : page) :
  reachable pin st -> exists now, sessionId st = Some (js "session_" ++ of_Z now).
Proof.
  induction 1 as [display now | e st Hr [now0 IH]].
  - exists now. apply run_startNewSession_session.
  - destruct (is_refresh e) eqn:He.
    + destruct e as [now | | |]; try discriminate. exists now.
      apply run_startNewSession_session.
    + exists now0. rewrite step_keeps_session; [assumption | | assumption].
      now apply session_of_clock_set with (now := now0).
Qed.

(** X1.  In every state the page can reach, the session id is
    [session_] followed by a reading of the clock, so the test
    [!sessionId] of [sendChatMessage] never holds: a send never starts a
    session and never clears the log.  Only a refresh changes the id. *)
Theorem session_id_always_set (pin : jsstring -> nat) (st : page) :
  reachable pin st ->
  (exists now, sessionId st = Some (js "session_" ++ of_Z now)) /\
  no_session st = false /\
  forall e, is_refresh e = false -> sessionId (step pin e st) = sessionId st.
Proof.
  intros Hr. destruct (reachable_session pin st Hr) as [now E].
  pose proof (session_of_clock_set now st E) as Hs.
  split; [now exists now|]. split; [exact Hs|].
  intros e He. now apply step_keeps_session.
Qed.

Lemma session_id_always_set_witness :
  sessionId (step no_ids (SendFinish Rejected) waiting_page)
  = sessionId waiting_page.
Proof.
  assert (R : reachable no_ids waiting_page).
  { apply (reach_step no_ids (SendBegin 1001)).
    apply (reach_step no_ids (Edit (js "hi"))). apply reach_load. }
  exact (proj2 (proj2 (session_id_always_set no_ids waiting_page R))
               (SendFinish Rejected) eq_refl).
Defined.

(** ** The request *)

Lemma wf_string_app (a b : jsstring) :
  wf_string a -> wf_string b -> wf_string (a ++ b).
Proof. unfold wf_string. intros. apply Forall_app. now split. Qed.

Lemma wf_string_trim (s : jsstring) : wf_string s -> wf_string (trim s).
Proof.
  intros H. destruct (trim_split s) as (l & r & E & _).
  unfold wf_string in *. rewrite E in H.
  apply Forall_app in H as [_ H]. now apply Forall_app in H as [H _].
Qed.

Lemma wf_string_digits (n : N) : wf_string (digits n).
Proof.
  destruct (digits_spec n) as (H & _). unfold wf_string.
  apply Forall_forall. intros c Hc.
  rewrite forallb_forall in H. specialize (H c Hc).
  unfold is_digit in H. apply andb_true_iff in H as [_ H].
  apply N.leb_le in H. lia.
Qed.

Lemma wf_string_of_Z (z : Z) : wf_string (of_Z z).
Proof.
  destruct z; cbn [of_Z]; try apply wf_string_digits.
  constructor; [reflexivity | apply wf_string_digits].
Qed.

Lemma wf_request_fields (message sid : jsstring) :
  wf_string message -> wf_string sid -> wf_json (request_fields message sid).
Proof.
  intros Hm Hs. unfold request_fields. cbn [wf_json map fst].
  split; [|repeat split; try assumption; unfold wf_string;
           apply Forall_forall; intros c Hc; vm_compute in Hc;
           intuition (subst; reflexivity)].
  constructor; [|constructor; [intros []|constructor]].
  intros [H|[]]. apply (f_equal (@length N)) in H. discriminate.
Qed.

(** X2.  When a message is sent, the body handed to [fetch] is JSON text
    that reads back as an object with two fields: [message], the input
    without the white space around it, and [session_id], the id of the
    session at that moment.  One request is added, the input field is
    emptied. *)
Theorem request_reads_back (pin : jsstring -> nat) (now : Z) (st : page) :
  reachable pin st -> trim (userInput st) <> [] -> wf_string (userInput st) ->
  exists body sid,
    sessionId st = Some sid /\
    fst (send_begin pin now st) = Normal (Some body) /\
    requests (run (send_begin pin now) st) = requests st ++ [body] /\
    userInput (run (send_begin pin now) st) = [] /\
    parse body = Some (request_fields (trim (userInput st)) sid).
Proof.
  intros Hr Hn Hw. destruct (reachable_session pin st Hr) as [now0 E].
  pose proof (session_of_clock_set now0 st E) as Hs.
  exists (request_body (trim (userInput st)) (js "session_" ++ of_Z now0)),
         (js "session_" ++ of_Z now0).
  unfold run. rewrite send_begin_run by assumption.
  unfold sent_page. rewrite Hs. unfold session_string. rewrite E.
  cbn [fst snd requests userInput]. repeat split; try assumption.
  unfold request_body. apply (parse_stringify (request_fields _ _)).
  apply wf_request_fields; [now apply wf_string_trim|].
  apply wf_string_app; [|apply wf_string_of_Z].
  unfold wf_string. apply Forall_forall. intros c Hc. vm_compute in Hc.
  intuition (subst; reflexivity).
Qed.

Lemma request_reads_back_witness :
  exists body,
    requests waiting_page = [body] /\
    parse body = Some (request_fields (js "hi") (js "session_1000")).
Proof.
  assert (R : reachable no_ids (set_userInput (js "  hi ") loaded_page)).
  { apply (reach_step no_ids (Edit (js "  hi "))). apply reach_load. }
  destruct (request_reads_back no_ids 1001 _ R ltac:(discriminate)
              ltac:(unfold wf_string; repeat constructor))
    as (body & sid & E1 & _ & E3 & _ & E5).
  exists body. injection E1 as <-. split; [|exact E5].
  vm_compute in E3. vm_compute. exact E3.
Defined.

(** ** The log without its placeholder *)

Lemma without_placeholder_none (l : list node) :
  count_typing l = O -> without_placeholder l = l.
Proof.
  unfold count_typing, without_placeholder.
  induction l as [|n l IH]; [reflexivity|]. cbn [filter].
  destruct (has_id TYPING_ID n); [discriminate|]. cbn [negb length].
  intros H. now rewrite IH.
Qed.

Lemma remove_by_id_without (l : list node) :
  (count_typing l <= 1)%nat -> remove_by_id TYPING_ID l = without_placeholder l.
Proof.
  unfold count_typing, without_placeholder.
  induction l as [|n l IH]; [reflexivity|]. cbn [filter remove_by_id].
  destruct (has_id TYPING_ID n) eqn:E; cbn [negb length]; intros H.
  - symmetry. apply without_placeholder_none. unfold count_typing. lia.
  - now rewrite IH.
Qed.

Lemma count_typing_without (l : list node) :
  count_typing (without_placeholder l) = O.
Proof.
  unfold count_typing, without_placeholder.
  induction l as [|n l IH]; [reflexivity|]. cbn [filter].
  destruct (has_id TYPING_ID n) eqn:E; cbn [negb]; [exact IH|].
  cbn [filter]. now rewrite E.
Qed.

(** Looking for the placeholder once or more often leaves the same log. *)
Lemma iter_remove_without (pin : jsstring -> nat) (k : nat) (l : list node) :
  (1 <= k)%nat -> (count_typing l <= 1)%nat -> tidy pin l ->
  Nat.iter k (remove_typing pin) l = without_placeholder l.
Proof.
  intros Hk Hc Ht. destruct (iter_remove_typing_tidy pin k l Ht) as [-> _].
  clear Ht. induction k as [|k IH]; [lia|].
  change (Nat.iter (S k) ?f l) with (f (Nat.iter k f l)).
  destruct k as [|k].
  - cbn [Nat.iter]. now apply remove_by_id_without.
  - rewrite IH by lia. rewrite remove_by_id_without.
    + apply without_placeholder_none, count_typing_without.
    + rewrite count_typing_without. lia.
Qed.

Lemma remove_twice_without (pin : jsstring -> nat) (l : list node) :
  (count_typing l <= 1)%nat -> tidy pin l ->
  remove_typing pin (remove_typing pin l) = without_placeholder l.
Proof.
  intros Hc Ht. apply (iter_remove_without pin 2); [lia | assumption..].
Qed.

Lemma remove_once_without (pin : jsstring -> nat) (l : list node) :
  (count_typing l <= 1)%nat -> tidy pin l ->
  remove_typing pin l = without_placeholder l.
Proof.
  intros Hc Ht. apply (iter_remove_without pin 1); [lia | assumption..].
Qed.

(** ** Failures *)

(** X3.  When the call fails, with no response, with a status that is not
    ok or with a body that is not JSON, the error is reported to the
    console under [Chat Error:], the placeholder leaves the log and the
    apology of the bot is added; nothing else on the page changes.  The
    body of a response whose status is not ok is never read. *)
Theorem failure_shows_apology (pin : jsstring -> nat) (o : fetch_outcome) (st : page) :
  is_failure o = true ->
  (count_typing (chatBox st) <= 1)%nat -> tidy pin (chatBox st) ->
  run (send_finish pin o) st
  = console_error (js "Chat Error:") (failure_error o)
      (set_chatBox (without_placeholder (chatBox st)
                    ++ [Bubble (make_bubble APOLOGY bot None)]) st) /\
  forall b b', run (send_finish pin (Responded false b)) st
               = run (send_finish pin (Responded false b')) st.
Proof.
  intros Hf Hc Ht. split; [|reflexivity].
  rewrite <- (remove_twice_without pin) by assumption.
  destruct o as [|[|] [|data]]; try discriminate; reflexivity.
Qed.

Lemma failure_shows_apology_witness :
  chatBox (run (send_finish no_ids (Responded false BadJson)) waiting_page)
  = [Bubble (make_bubble GREETING bot None);
     Bubble (make_bubble (js "hi") user None);
     Bubble (make_bubble APOLOGY bot None)].
Proof.
  rewrite (proj1 (failure_shows_apology no_ids (Responded false BadJson) waiting_page
                    eq_refl ltac:(vm_compute; lia)
                    (tidy_without_ids no_ids _ (fun _ => eq_refl)))).
  reflexivity.
Defined.

(** ** Answers *)

Lemma field_opt_field (name : jsstring) (data : json) :
  data <> JNull -> field name (Some data) = Normal (opt_field name (Some data)).
Proof. destruct data; try reflexivity. congruence. Qed.

(** Without a table the answer goes to the last test of the [try] block. *)
Lemma no_table_goes_to_reply (pin : jsstring -> nat) (data : json) (st : page) :
  data <> JNull -> quiet_table (opt_field (js "table") (Some data)) = true ->
  run (send_finish pin (Responded true (Parsed data))) st
  = snd (try_catch (show_reply pin data) (on_error pin)
           (set_chatBox (remove_typing pin (chatBox st)) st)).
Proof.
  intros Hn Ht. unfold run, send_finish. unfold try_catch at 1. cbn [on_response].
  unfold bind at 1. rewrite removeTypingIndicator_run.
  unfold bind at 1, lift at 1. rewrite field_opt_field by assumption.
  unfold bind at 1, lift at 1. rewrite (quiet_table_absent _ Ht).
  unfold try_catch.
  destruct (opt_field (js "table") (Some data)); reflexivity.
Qed.

Lemma text_reply_shown_in
      (pin : jsstring -> nat) (data : json) (r : jsstring) (st : page) :
  quiet_table (opt_field (js "table") (Some data)) = true ->
  opt_field (js "reply") (Some data) = Some (JStr r) -> trim r <> [] ->
  (count_typing (chatBox st) <= 1)%nat -> tidy pin (chatBox st) ->
  chatBox (run (send_finish pin (Responded true (Parsed data))) st)
  = without_placeholder (chatBox st) ++ [Bubble (make_bubble r bot None)] /\
  run (send_finish pin (Responded true (Parsed data))) st
  = set_chatBox (chatBox (run (send_finish pin (Responded true (Parsed data))) st)) st.
Proof.
  intros Ht Hr Hn Hc Hy.
  assert (Hd : data <> JNull) by (intros ->; discriminate).
  rewrite no_table_goes_to_reply by assumption.
  unfold try_catch, show_reply, bind, lift.
  rewrite field_opt_field, Hr by assumption.
  assert (Hr0 : r <> []) by (intros ->; now apply Hn).
  apply eqb_neq in Hr0. apply eqb_neq in Hn. cbn [truthy]. rewrite Hr0, Hn.
  cbn [negb]. rewrite addMessageToChatbox_run.
  cbn [snd is_typing_id set_chatBox chatBox sessionId categoryDisplay userInput
       requests console].
  rewrite remove_twice_without by assumption. now split.
Qed.

(** X4.  An answer without a table whose [reply] is a string that is not
    blank: the placeholder leaves the log and one bubble of the bot with
    the reply is added; nothing is reported and nothing else changes. *)
Theorem text_reply_is_shown
        (pin : jsstring -> nat) (data : json) (r : jsstring) (st : page) :
  quiet_table (opt_field (js "table") (Some data)) = true ->
  opt_field (js "reply") (Some data) = Some (JStr r) -> trim r <> [] ->
  (count_typing (chatBox st) <= 1)%nat -> tidy pin (chatBox st) ->
  run (send_finish pin (Responded true (Parsed data))) st
  = set_chatBox (without_placeholder (chatBox st)
                 ++ [Bubble (make_bubble r bot None)]) st.
Proof.
  intros Ht Hr Hn Hc Hy.
  destruct (text_reply_shown_in pin data r st Ht Hr Hn Hc Hy) as [E1 E2].
  now rewrite E2, E1.
Qed.

Lemma text_reply_is_shown_witness :
  chatBox (run (send_finish no_ids
                  (Responded true (Parsed (JObj [(js "reply", JStr (js "Hello"))]))))
               waiting_page)
  = [Bubble (make_bubble GREETING bot None);
     Bubble (make_bubble (js "hi") user None);
     Bubble (make_bubble (js "Hello") bot None)].
Proof.
  rewrite (text_reply_is_shown no_ids (JObj [(js "reply", JStr (js "Hello"))])
             (js "Hello") waiting_page eq_refl eq_refl ltac:(discriminate)
             ltac:(vm_compute; lia)
             (tidy_without_ids no_ids _ (fun _ => eq_refl))).
  reflexivity.
Defined.

(** X5.  An answer without a table whose [reply] is truthy and no string,
    a number other than 0, [true], an array or an object: the call of
    [trim] on it throws, and the turn ends as a failure does, with a
    [TypeError] on the console and the apology in the log. *)
Theorem reply_of_wrong_type_apologises
        (pin : jsstring -> nat) (data : json) (st : page) :
  quiet_table (opt_field (js "table") (Some data)) = true ->
  truthy_non_string (opt_field (js "reply") (Some data)) = true ->
  (count_typing (chatBox st) <= 1)%nat -> tidy pin (chatBox st) ->
  run (send_finish pin (Responded true (Parsed data))) st
  = console_error (js "Chat Error:") TypeError
      (set_chatBox (without_placeholder (chatBox st)
                    ++ [Bubble (make_bubble APOLOGY bot None)]) st).
Proof.
  intros Ht Hr Hc Hy.
  assert (Hd : data <> JNull) by (intros ->; discriminate).
  rewrite no_table_goes_to_reply by assumption.
  unfold try_catch, show_reply, bind, lift.
  rewrite field_opt_field by assumption.
  unfold truthy_non_string in Hr. apply andb_true_iff in Hr as [Hr1 Hr2].
  rewrite Hr1.
  assert (E : forall s : page,
             match opt_field (js "reply") (Some data) with
             | Some (JStr r) =>
                 if eqb (trim r) [] then ret tt
                 else addMessageToChatbox pin r bot None
             | _ => throw TypeError
             end s = (Throw TypeError, s)).
  { intros s. destruct (opt_field (js "reply") (Some data)) as [[| | |r| |]|];
      try discriminate; reflexivity. }
  rewrite E, on_error_run.
  cbn [snd console_error set_chatBox chatBox sessionId categoryDisplay userInput
       requests console].
  rewrite <- (remove_once_without pin (chatBox st)) by assumption.
  assert (T : tidy pin (remove_typing pin (chatBox st))).
  { rewrite remove_typing_tidy by assumption. now apply tidy_remove. }
  assert (C : (count_typing (remove_typing pin (chatBox st)) <= 1)%nat).
  { rewrite remove_typing_tidy, count_typing_remove by assumption. lia. }
  rewrite (remove_twice_without pin _ C T).
  rewrite (remove_once_without pin (chatBox st)) by assumption.
  rewrite without_placeholder_none by apply count_typing_without.
  reflexivity.
Qed.

Lemma reply_of_wrong_type_apologises_witness :
  chatBox (run (send_finish no_ids
                  (Responded true (Parsed (JObj [(js "reply", JNum 42)]))))
               waiting_page)
  = [Bubble (make_bubble GREETING bot None);
     Bubble (make_bubble (js "hi") user None);
     Bubble (make_bubble APOLOGY bot None)].
Proof.
  rewrite (reply_of_wrong_type_apologises no_ids (JObj [(js "reply", JNum 42)])
             waiting_page eq_refl eq_refl ltac:(vm_compute; lia)
             (tidy_without_ids no_ids _ (fun _ => eq_refl))).
  reflexivity.
Defined.

Lemma make_card_first_row (t : json) (m : value) :
  first_row_is_array t = false -> is_meta_payload m = true ->
  make_card t (or_null m) = Throw TypeError.
Proof.
  intros Hr Hm. unfold make_card.
  destruct (make_meta_box_payload m Hm) as [b ->]. cbn [cbind].
  unfold table_markup, first_row_is_array in *.
  destruct (index t 0) as [[| | | | |]|]; try discriminate; reflexivity.
Qed.

(** X6.  An answer whose [table] has a length above 0 and a first row
    that is no array, as a table that is a string or an array of numbers
    has: no card is built, a [TypeError] is reported to the console, the
    placeholder leaves the log and the apology is added.  The reply of
    such an answer is not shown. *)
Theorem table_without_rows_apologises
        (pin : jsstring -> nat) (fs : list (jsstring * json)) (t : json) (st : page) :
  lookup (js "table") fs = Some t -> table_present (Some t) = Normal true ->
  first_row_is_array t = false ->
  is_meta_payload (lookup (js "meta") fs) = true ->
  (count_typing (chatBox st) <= 1)%nat -> tidy pin (chatBox st) ->
  run (send_finish pin (Responded true (Parsed (JObj fs)))) st
  = console_error (js "Chat Error:") TypeError
      (set_chatBox (without_placeholder (chatBox st)
                    ++ [Bubble (make_bubble APOLOGY bot None)]) st).
Proof.
  intros Ht Hp Hr Hm Hc Hy.
  unfold run, send_finish, try_catch. cbn [on_response].
  unfold bind at 1. rewrite removeTypingIndicator_run.
  unfold bind at 1, lift at 1. cbn [field]. rewrite Ht.
  unfold bind at 1, lift at 1. rewrite Hp.
  unfold bind, lift, addTableToChat. cbn [field].
  rewrite make_card_first_row by assumption.
  unfold bind, lift. cbn beta iota. rewrite on_error_run.
  cbn [snd console_error set_chatBox chatBox sessionId categoryDisplay userInput
       requests console].
  assert (T : tidy pin (remove_typing pin (chatBox st))).
  { rewrite remove_typing_tidy by assumption. now apply tidy_remove. }
  assert (C : (count_typing (remove_typing pin (chatBox st)) <= 1)%nat).
  { rewrite remove_typing_tidy, count_typing_remove by assumption. lia. }
  rewrite (remove_twice_without pin _ C T).
  rewrite (remove_once_without pin (chatBox st)) by assumption.
  rewrite without_placeholder_none by apply count_typing_without.
  reflexivity.
Qed.

Lemma table_without_rows_apologises_witness :
  chatBox (run (send_finish no_ids
                  (Responded true
                     (Parsed (JObj [(js "reply", JStr (js "Here you are"));
                                    (js "table", JStr (js "State,Rate"))]))))
               waiting_page)
  = [Bubble (make_bubble GREETING bot None);
     Bubble (make_bubble (js "hi") user None);
     Bubble (make_bubble APOLOGY bot None)].
Proof.
  rewrite (table_without_rows_apologises no_ids
             [(js "reply", JStr (js "Here you are"));
              (js "table", JStr (js "State,Rate"))]
             (JStr (js "State,Rate")) waiting_page
             eq_refl eq_refl eq_refl eq_refl ltac:(vm_compute; lia)
             (tidy_without_ids no_ids _ (fun _ => eq_refl))).
  reflexivity.
Defined.

(** ** The placeholder and the log over time *)





(** X8.  A refresh does not call off a call that is under way: when the
    answer comes after the refresh, its reply is shown in the new log,
    right below the greeting, whatever the page was before. *)
Theorem answer_after_refresh
        (pin : jsstring -> nat) (now : Z) (data : json) (r : jsstring) (st : page) :
  plain_is_plain pin ->
  quiet_table (opt_field (js "table") (Some data)) = true ->
  opt_field (js "reply") (Some data) = Some (JStr r) -> trim r <> [] ->
  chatBox (step pin (SendFinish (Responded true (Parsed data)))
             (step pin (Refresh now) st))
  = [Bubble (make_bubble GREETING bot None); Bubble (make_bubble r bot None)].
Proof.
  intros Hp Ht Hr Hn. cbn [step].
  destruct (text_reply_shown_in pin data r (run (startNewSession pin now) st)
              Ht Hr Hn) as [E _].
  - unfold run. rewrite startNewSession_run. cbn. lia.
  - now apply tidy_start.
  - rewrite E. unfold run. now rewrite startNewSession_run.
Qed.

Lemma answer_after_refresh_witness :
  chatBox (step no_ids
             (SendFinish (Responded true (Parsed (JObj [(js "reply", JStr (js "Hello"))]))))
             (step no_ids (Refresh 2000) waiting_page))
  = [Bubble (make_bubble GREETING bot None); Bubble (make_bubble (js "Hello") bot None)].
Proof.
  apply (answer_after_refresh no_ids 2000 (JObj [(js "reply", JStr (js "Hello"))])
           (js "Hello") waiting_page);
    [intros t _; reflexivity | reflexivity | reflexivity | discriminate].
Defined.


Lemma button_data_step (pin : jsstring -> nat) (d : jsstring * jsstring)
      (e : event) (st : page) :
  no_session st = false -> is_refresh e = false ->
  In (Some d) (map button_data (chatBox st)) ->
  In (Some d) (map button_data (chatBox (step pin e st))).
Proof.
  intros Hs He Hin. destruct e as [now | text | now | o]; cbn [step];
    try discriminate.
  - exact Hin.
  - unfold run. destruct (eqb (trim (userInput st)) []) eqn:E.
    + apply eqb_eq in E. now rewrite send_begin_blank.
    + apply eqb_neq in E. rewrite send_begin_run by assumption.
      unfold sent_page. rewrite Hs.
      cbn [snd chatBox]. rewrite map_app. apply in_or_app. left.
      now apply button_data_remove_typing.
  - destruct (send_finish_shape pin o st) as (k & tail & _ & _ & E & _).
    rewrite E, map_app. apply in_or_app. left. clear E.
    induction k as [|k IH]; [assumption|].
    change (Nat.iter (S k) ?f (chatBox st)) with (f (Nat.iter k f (chatBox st))).
    now apply button_data_remove_typing.
Qed.

(** X9.  Once a card is in the log, the table and the meta object its
    download button holds stay in the log as they are, whatever is sent
    and answered afterwards and whatever the markup of the messages
    holds, until the chat is started anew. *)
Theorem card_data_survives (pin : jsstring -> nat) (es : list event)
        (d : jsstring * jsstring) (st : page) :
  reachable pin st -> existsb is_refresh es = false ->
  In (Some d) (map button_data (chatBox st)) ->
  In (Some d) (map button_data (chatBox (steps pin es st))).
Proof.
  revert st. induction es as [|e es IH]; intros st Hr He Hin; [exact Hin|].
  cbn [existsb] in He. apply orb_false_iff in He as [He Hes].
  cbn [steps fold_left]. apply IH; [now apply reach_step | assumption |].
  apply button_data_step; [|assumption..].
  destruct (reachable_session pin st Hr) as [now E].
  now apply session_of_clock_set with (now := now).
Qed.

Lemma card_data_survives_witness :
  In (Some (stringify delhi_table, stringify delhi_meta))
     (map button_data
        (chatBox (steps no_ids
                    [Edit (js "thanks"); SendBegin 1002; SendFinish Rejected]
                    (step no_ids (SendFinish (Responded true (Parsed (JObj delhi_answer))))
                          waiting_page)))).
Proof.
  apply (card_data_survives no_ids
           [Edit (js "thanks"); SendBegin 1002; SendFinish Rejected]).
  - apply (reach_step no_ids (SendFinish _)).
    apply (reach_step no_ids (SendBegin 1001)).
    apply (reach_step no_ids (Edit (js "hi"))). apply reach_load.
  - reflexivity.
  - vm_compute. right. right. left. reflexivity.
Defined.

(** ** The listeners *)



(** X11.  A click on a quick-action button sends the label of the button,
    a label of one line: what the input field held before is overwritten
    and plays no role.  When the label is blank nothing is sent, and the
    blank label is left in the input field; otherwise the request carries
    the label without the white space around it and the input field is
    emptied. *)
Theorem quick_action_sends_label
        (pin : jsstring -> nat) (now : Z) (label : jsstring) (st : page) :
  one_line label = true ->
  (forall draft,
      listener pin now (ClickCategory label) (set_userInput draft st)
      = listener pin now (ClickCategory label) st) /\
  (trim label = [] ->
   listener pin now (ClickCategory label) st = (Normal None, set_userInput label st)) /\
  (trim label <> [] -> no_session st = false ->
   fst (listener pin now (ClickCategory label) st)
   = Normal (Some (request_body (trim label) (session_string st))) /\
   userInput (run (listener pin now (ClickCategory label)) st) = [] /\
   requests (run (listener pin now (ClickCategory label)) st)
   = requests st ++ [request_body (trim label) (session_string st)]).
Proof.
  intros _. split; [reflexivity|]. split.
  - intros H. cbn [listener]. unfold bind, modify.
    now rewrite send_begin_blank.
  - intros H Hs. unfold run. cbn [listener]. unfold bind, modify.
    rewrite send_begin_run by exact H.
    unfold sent_page.
    change (no_session (set_userInput label st)) with (no_session st).
    rewrite Hs. now repeat split.
Qed.

Lemma quick_action_sends_label_witness :
  requests (run (listener no_ids 1001 (ClickCategory (js " Minimum wages ")))
                (set_userInput (js "a draft") loaded_page))
  = [request_body (js "Minimum wages") (js "session_1000")].
Proof.
  destruct (quick_action_sends_label no_ids 1001 (js " Minimum wages ")
              (set_userInput (js "a draft") loaded_page) eq_refl)
    as (_ & _ & H).
  destruct (H ltac:(discriminate) eq_refl) as (_ & _ & E).
  rewrite E. reflexivity.
Defined.

(** ** What a bubble shows, again *)

Lemma trim_start_fixed (s : jsstring) : no_space_head s -> trim_start s = s.
Proof. destruct s as [|c r]; [reflexivity|]. cbn. now intros ->. Qed.

Lemma trim_fixed (s : jsstring) :
  no_space_head s -> no_space_head (rev s) -> trim s = s.
Proof.
  intros H1 H2. unfold trim, trim_end.
  rewrite (trim_start_fixed s H1), (trim_start_fixed _ H2). apply rev_involutive.
Qed.

Lemma trim_idempotent (s : jsstring) : trim (trim s) = trim s.
Proof.
  destruct (trim_split s) as (l & r & _ & _ & _ & H1 & H2). now apply trim_fixed.
Qed.

Lemma img_tag_has_brackets (t : jsstring) : is_img_tag t -> In 60 t /\ In GT t.
Proof.
  intros (body & -> & _). change (js "<img") with [60; 105; 109; 103].
  cbn [app]. split.
  - left. reflexivity.
  - do 4 right. apply in_or_app. right. left. reflexivity.
Qed.

Lemma strip_aux_no_tag (s : jsstring) :
  ~ In 60 s \/ ~ In GT s -> strip_aux 0 s = s.
Proof.
  induction s as [|c r IH]; intros H; [reflexivity|].
  cbn [strip_aux]. destruct (match_img (c :: r)) as [n|] eqn:E.
  - exfalso. apply match_img_inv in E as (t & post & Es & Ht & _).
    apply img_tag_has_brackets in Ht as [H60 HGT].
    rewrite Es in H. destruct H as [H|H]; apply H; apply in_or_app; now left.
  - f_equal. apply IH. destruct H as [H|H]; [left | right];
      intros C; apply H; now right.
Qed.

(** X12.  A text without [<], or without [>], holds no image tag and goes
    into the bubble as it is but for the white space around it.  So the
    bubble of the user shows the trimmed input itself when the input is
    such a text. *)
Theorem plain_text_is_shown
        (text : jsstring) (who : sender) (id : option jsstring) :
  ~ In 60 text \/ ~ In GT text ->
  message_html (make_bubble text who id) = trim text /\
  message_html (make_bubble (trim text) who id) = trim text.
Proof.
  intros H. cbn [make_bubble message_html]. unfold sanitize, strip_img.
  split.
  - now rewrite strip_aux_no_tag.
  - rewrite strip_aux_no_tag; [apply trim_idempotent|].
    destruct (trim_split text) as (l & r & E & _).
    rewrite E in H. destruct H as [H|H]; [left | right]; intros C; apply H;
      apply in_or_app; right; apply in_or_app; now left.
Qed.

Lemma plain_text_is_shown_witness :
  message_html (make_bubble (js "  2 < 3 ") user None) = js "2 < 3".
Proof.
  assert (H : ~ In GT (js "  2 < 3 ")).
  { change (js "  2 < 3 ") with [32; 32; 50; 32; 60; 32; 51; 32].
    cbn [In]. intuition discriminate. }
  rewrite (proj1 (plain_text_is_shown (js "  2 < 3 ") user None (or_intror H))).
  vm_compute. reflexivity.
Defined.

Lemma strip_aux_skip_all (s : jsstring) : forall k,
  (length s <= k)%nat -> strip_aux k s = [].
Proof.
  induction s as [|c r IH]; intros k H; [reflexivity|].
  destruct k as [|k]; [cbn in H; lia|]. cbn [strip_aux]. apply IH.
  cbn [length] in H. lia.
Qed.

Lemma strip_img_tag (t : jsstring) : is_img_tag t -> strip_img t = [].
Proof.
  intros H. pose proof (match_img_intro t [] H) as E. rewrite app_nil_r in E.
  unfold strip_img. destruct t as [|c r]; [reflexivity|].
  cbn [strip_aux]. rewrite E. apply strip_aux_skip_all. cbn [length pred]. lia.
Qed.

(** X13.  A reply that is an image tag and nothing else passes the test
    for a reply that is not blank, which looks at the reply as it came,
    and the filter then leaves nothing of it: an empty bubble of the bot
    is added to the log. *)
Theorem image_only_reply_gives_empty_bubble
        (pin : jsstring -> nat) (data : json) (r : jsstring) (st : page) :
  is_img_tag r ->
  quiet_table (opt_field (js "table") (Some data)) = true ->
  opt_field (js "reply") (Some data) = Some (JStr r) ->
  (count_typing (chatBox st) <= 1)%nat -> tidy pin (chatBox st) ->
  chatBox (run (send_finish pin (Responded true (Parsed data))) st)
  = without_placeholder (chatBox st) ++ [Bubble (make_bubble r bot None)] /\
  message_html (make_bubble r bot None) = [].
Proof.
  intros Hi Ht Hr Hc Hy. split.
  - apply text_reply_shown_in; try assumption.
    intros C. apply trim_nil_iff in C. destruct Hi as (body & -> & _).
    discriminate.
  - cbn [make_bubble message_html]. unfold sanitize.
    now rewrite strip_img_tag.
Qed.

Lemma image_only_reply_gives_empty_bubble_witness :
  chatBox (run (send_finish no_ids
                  (Responded true
                     (Parsed (JObj [(js "reply", JStr (js "<img src=x>"))]))))
               waiting_page)
  = [Bubble (make_bubble GREETING bot None);
     Bubble (make_bubble (js "hi") user None);
     Bubble (make_bubble (js "<img src=x>") bot None)] /\
  message_html (make_bubble (js "<img src=x>") bot None) = [].
Proof.
  apply (image_only_reply_gives_empty_bubble no_ids
           (JObj [(js "reply", JStr (js "<img src=x>"))]) (js "<img src=x>")
           waiting_page).
  - exists (js " src=x"). split; [reflexivity|]. cbn. intuition discriminate.
  - reflexivity.
  - reflexivity.
  - vm_compute. lia.
  - apply tidy_without_ids. reflexivity.
Defined.

(** ** The markup of a card *)

Lemma cells_html_strings (tag : jsstring) (cells : list jsstring) :
  cells_html tag (map JStr cells) = Normal (concat (map (cell_markup tag) cells)).
Proof.
  induction cells as [|c r IH]; [reflexivity|].
  cbn [map cells_html to_string cbind concat]. rewrite IH. cbn [cbind].
  f_equal. unfold cell_markup.
  change (js "<") with [60]. change (js ">") with [62]. change (js "</") with [60; 47].
  cbn [app]. repeat (rewrite <- app_assoc; cbn [app]). reflexivity.
Qed.

Lemma row_html_strings (tag : jsstring) (cells : list jsstring) :
  row_html tag (Some (JArr (map JStr cells))) = Normal (row_markup tag cells).
Proof. cbn [row_html]. now rewrite cells_html_strings. Qed.

Lemma rows_html_strings (pre rest : list (list jsstring)) :
  rows_html (strings_table (pre ++ rest)) (seq (length pre) (length rest))
  = Normal (concat (map (row_markup (js "td")) rest)).
Proof.
  revert pre. induction rest as [|r rest IH]; intros pre; [reflexivity|].
  cbn [length seq rows_html]. unfold strings_table at 1. cbn [index].
  rewrite nth_error_map, nth_error_app2, Nat.sub_diag by apply Nat.le_refl.
  cbn [nth_error option_map]. rewrite row_html_strings. cbn [cbind].
  replace (pre ++ r :: rest) with ((pre ++ [r]) ++ rest)
    by (now rewrite <- app_assoc).
  replace (S (length pre)) with (length (pre ++ [r]))
    by (rewrite length_app; cbn; lia).
  rewrite IH. reflexivity.
Qed.

(** X14.  For a table of strings, the markup of the card is one table with
    one row for every row of the data, in their order: the cells of the
    first row as header cells, the cells of every other row as data
    cells.  The text of a cell goes into the markup as it is. *)
Theorem table_markup_of_strings (head : list jsstring) (rows : list (list jsstring)) :
  table_markup (strings_table (head :: rows))
  = Normal (jsq "<table class='wage-table'>"
            ++ row_markup (js "th") head
            ++ concat (map (row_markup (js "td")) rows)
            ++ js "</table>").
Proof.
  unfold table_markup.
  assert (E0 : index (strings_table (head :: rows)) 0 = Some (JArr (map JStr head)))
    by reflexivity.
  rewrite E0, row_html_strings. cbn [cbind].
  assert (E1 : row_indices (strings_table (head :: rows))
               = Normal (seq 1 (length rows))).
  { unfold strings_table. rewrite row_indices_array, length_map.
    cbn [length]. now rewrite Nat.sub_succ, Nat.sub_0_r. }
  rewrite E1. cbn [cbind].
  pose proof (rows_html_strings [head] rows) as E2.
  cbn [app length] in E2. rewrite E2. reflexivity.
Qed.

Lemma show_text_of (k : jsstring) (fs : list (jsstring * json)) :
  forallb (fun kx => is_string (snd kx)) fs = true ->
  show (lookup k fs) = Normal (text_of (lookup k fs)).
Proof.
  intros H. destruct (lookup k fs) as [v|] eqn:E; [|reflexivity].
  apply (lookup_payload _ _ _ H) in E. destruct v; try discriminate. reflexivity.
Qed.



(** ** The export of a table with a meta object *)

Lemma dbind_assoc {A B C} (m : Doc A) (f : A -> Doc B) (g : B -> Doc C)
      (tr : list pdf_call) :
  dbind (dbind m f) g tr = dbind m (fun a => dbind (f a) g) tr.
Proof. unfold dbind. destruct (m tr) as [[a|e] tr']; reflexivity. Qed.

Lemma dbind_run {A B} (m : Doc A) (k : A -> Doc B) (a : A) (tr tr' : list pdf_call) :
  m tr = (Normal a, tr') -> dbind m k tr = k a tr'.
Proof. intros E. unfold dbind. now rewrite E. Qed.

Lemma dbind_throw {A B} (m : Doc A) (k : A -> Doc B) (e : js_error)
      (tr tr' : list pdf_call) :
  m tr = (Throw e, tr') -> dbind m k tr = (Throw e, tr').
Proof. intros E. unfold dbind. now rewrite E. Qed.

Lemma meta_block_strings (env : pdf_env) (fs : list (jsstring * json))
      (tr : list pdf_call) :
  (forall k, api_fails env k = false) ->
  forallb (fun kx => is_string (snd kx)) fs = true ->
  meta_block env (Some (JObj fs)) 30 tr = (Normal (table_start fs), tr ++ meta_calls fs).
Proof.
  intros Hapi H. unfold meta_block, meta_calls, table_start. cbn [truthy field cbind].
  rewrite dbind_api_ok by assumption.
  rewrite (show_text_of _ fs H), dbind_dlift, dbind_api_ok by assumption.
  rewrite (show_text_of _ fs H), dbind_dlift, dbind_api_ok by assumption.
  rewrite dbind_dlift.
  destruct (truthy (lookup (js "pdf_url") fs)).
  - rewrite dbind_api_ok by assumption.
    rewrite (show_text_of _ fs H), dbind_dlift.
    rewrite !dbind_api_ok by assumption.
    unfold dret. rewrite <- !app_assoc. reflexivity.
  - unfold dret. rewrite <- !app_assoc. reflexivity.
Qed.

Lemma meta_block_payload (env : pdf_env) (meta : value) (tr : list pdf_call) :
  (forall k, api_fails env k = false) -> is_meta_payload meta = true ->
  exists y, meta_block env (default_meta meta) 30 tr = (Normal y, tr ++ meta_part meta).
Proof.
  intros Hapi H. destruct meta as [[| | | | |fs]|]; try discriminate.
  - exists 30%Z. cbn. now rewrite app_nil_r.
  - exists (table_start fs). now apply meta_block_strings.
  - exists 30%Z. cbn. now rewrite app_nil_r.
Qed.

(** X16.  With a library that works, the export of a table that is an
    array, with a meta object whose values are strings, runs to its end.
    Below the two titles it writes the state at 30 and the date at 36, a
    field that is missing as [undefined], and when [pdf_url] is not empty
    the link in blue at 42, with the colour set back to black; the table
    starts at 52 below a link and at 42 otherwise, its head is the first
    row and its body the rows after it, for an empty array no head and
    an empty body; then come the disclaimer and the save. *)
Theorem export_with_meta (env : pdf_env) (rows : list json)
        (fs : list (jsstring * json)) :
  sound_env env -> is_meta_payload (Some (JObj fs)) = true ->
  exists y,
    final_y env = Some y /\
    downloadTableAsPDF env (Some (JArr rows)) (Some (JObj fs))
    = {| calls := title_calls ++ meta_calls fs
                  ++ table_calls (nth_error rows 0) (JArr (tl rows)) (table_start fs) y
                       (spec_file_name (Some (JObj fs)));
         logged := []; alerts := [] |}.
Proof.
  intros [Hapi Hy] Hm. destruct (final_y env) as [y|] eqn:Ey; [|congruence].
  exists y. split; [reflexivity|].
  unfold downloadTableAsPDF, export_try. cbn [default_meta].
  rewrite !dbind_api_ok by assumption. cbn [app].
  erewrite dbind_run by (now apply meta_block_strings).
  cbn [head_row index slice_1]. rewrite !dbind_dlift.
  rewrite dbind_api_ok by assumption.
  rewrite Ey, dbind_dlift.
  rewrite !dbind_api_ok by assumption.
  pose proof (file_name_payload (Some (JObj fs)) Hm) as En.
  cbn [default_meta] in En. rewrite En, dbind_dlift.
  unfold api. rewrite Hapi. unfold table_calls.
  rewrite <- !app_assoc. reflexivity.
Qed.

Lemma export_with_meta_witness :
  calls (downloadTableAsPDF working_env (Some delhi_table) (Some delhi_meta))
  = title_calls
    ++ [SetFontSize 11;
        Text (js "State: Delhi") 14 30 None;
        Text (js "Effective From: undefined") 14 36 None;
        SetTextColor 0 0 255;
        Text (js "Govt Notification PDF: http://x/doc.pdf") 14 42 None;
        SetTextColor 0 0 0]
    ++ table_calls (Some (JArr [JStr (js "State"); JStr (js "Rate")]))
         (JArr [JArr [JStr (js "Delhi"); JStr (js "500")]]) 52 57
         (js "Wage_Details_Delhi.pdf").
Proof.
  destruct (export_with_meta working_env
              [JArr [JStr (js "State"); JStr (js "Rate")];
               JArr [JStr (js "Delhi"); JStr (js "500")]]
              [(js "state", JStr (js "Delhi")); (js "pdf_url", JStr (js "http://x/doc.pdf"))]
              working_env_sound eq_refl) as (y & Ey & E).
  injection Ey as <-. unfold delhi_table, delhi_meta. rewrite E. reflexivity.
Defined.

(** X17.  With a library that works, the export of a table that is
    missing or has no [slice], [null], a number, a boolean or an object,
    with a meta value of the wire format: the titles and the lines of the
    meta block are written, then the table makes the export throw a
    [TypeError]; the error is logged, the alert is shown, and no table is
    drawn and no file offered. *)
Theorem export_without_table (env : pdf_env) (tableData meta : value) :
  sound_env env -> is_meta_payload meta = true -> has_slice tableData = false ->
  downloadTableAsPDF env tableData meta
  = {| calls := title_calls ++ meta_part meta;
       logged := [(js "PDF Error:", TypeError)];
       alerts := [ALERT] |}.
Proof.
  intros [Hapi Hy] Hm Hs.
  unfold downloadTableAsPDF, export_try.
  rewrite !dbind_api_ok by assumption. cbn [app].
  match goal with
  | |- context [dbind (meta_block env _ 30) _ ?tr] =>
      destruct (meta_block_payload env meta tr Hapi Hm) as [y E]
  end.
  rewrite (dbind_run _ _ _ _ _ E).
  destruct tableData as [[| | | | |]|]; try discriminate; reflexivity.
Qed.

Lemma export_without_table_witness :
  downloadTableAsPDF working_env (Some JNull) (Some delhi_meta)
  = {| calls := title_calls ++ meta_calls
                  [(js "state", JStr (js "Delhi"));
                   (js "pdf_url", JStr (js "http://x/doc.pdf"))];
       logged := [(js "PDF Error:", TypeError)];
       alerts := [ALERT] |}.
Proof.
  exact (export_without_table working_env (Some JNull) (Some delhi_meta)
           working_env_sound eq_refl eq_refl).
Defined.

(** ** Sending *)



